(** * Zappix hooks: image-post pagination and reactions

    A shallow embedding of [src/hooks/useUserImagePosts.ts] and of the
    reaction hooks ([useReactions], [useReactToPost], [useRemoveReaction]),
    with the properties of the specification stated over it.

    Conventions of the embedding:
    - a JavaScript [string] is a Rocq [string]; the literals compared against
      are ASCII, so byte-wise equality and substring search agree with the
      UTF-16 ones of the source;
    - [number] fields that hold protocol integers ([kind], [created_at],
      counters, millisecond delays) are [Z];
    - [undefined] is [None];
    - an [await] that rejects and a [throw] are the left injection of the
      result, and every call made to a collaborator (relay pool, signer,
      query cache) is appended to a log kept in the state. *)

From Stdlib Require Import ZArith String List Bool Lia Sorted Permutation.
From stdpp Require Import gmap strings list fin_maps.

Set Warnings "-register-all".

Open Scope Z_scope.
Open Scope string_scope.
Open Scope list_scope.

(** ** JavaScript values used by the hooks *)

Module Js.

(** Truthiness of a [string | undefined]: [undefined] and [""] are falsy. *)
Definition truthy (v : option string) : bool :=
  match v with
  | None => false
  | Some s => negb (String.eqb s "")
  end.

(** Truthiness of an [object | undefined]: every object is truthy. *)
Definition defined {A : Type} (v : option A) : bool :=
  match v with
  | None => false
  | Some _ => true
  end.

(** Truthiness of a [number | undefined]: [undefined] and [0] are falsy. *)
Definition truthy_number (v : option Z) : bool :=
  match v with
  | None => false
  | Some n => negb (n =? 0)%Z
  end.

(** [a || b] on strings: the left operand unless it is falsy. *)
Definition or_else (a b : string) : string :=
  if String.eqb a "" then b else a.

(** [hay.includes(needle)]: [needle] occurs in [hay] at some offset. *)
Fixpoint includes (hay needle : string) : bool :=
  String.prefix needle hay
  || match hay with
     | EmptyString => false
     | String _ rest => includes rest needle
     end.

(** The error values the hooks can end with. [Error] is [new Error(msg)],
    [TypeError] is the engine's own, [Rejected] is whatever a collaborator
    rejected its promise with. *)
Inductive error : Type :=
| Error (msg : string)
| TypeError (msg : string)
| Rejected (reason : string).

(** Members inherited from [Object.prototype] by an object literal. *)
Definition object_prototype_keys : list string :=
  [ "constructor"; "__defineGetter__"; "__defineSetter__"; "hasOwnProperty";
    "__lookupGetter__"; "__lookupSetter__"; "isPrototypeOf";
    "propertyIsEnumerable"; "toString"; "valueOf"; "__proto__";
    "toLocaleString" ].

Definition inherited (key : string) : bool :=
  existsb (String.eqb key) object_prototype_keys.

End Js.

(** ** Events *)

(** [NostrEvent] of [@nostrify/nostrify]. *)
Record NostrEvent : Type := mkEvent {
  id : string;
  pubkey : string;
  created_at : Z;
  kind : Z;
  tags : list (list string);
  content : string;
  sig : string
}.

(** [tags.find(([name]) => name === wanted)]: the first tag whose first
    element is [wanted]; a tag with no element has an undefined name. *)
Definition tag_named (wanted : string) (tag : list string) : bool :=
  match tag with
  | [] => false
  | name :: _ => String.eqb name wanted
  end.

Definition find_tag (wanted : string) (tgs : list (list string))
  : option (list string) :=
  List.find (tag_named wanted) tgs.

(** [tag[1]] *)
Definition tag_value (tag : list string) : option string := nth_error tag 1.

(** [tags.find(...)?.[1]] *)
Definition find_tag_value (wanted : string) (tgs : list (list string))
  : option string :=
  match find_tag wanted tgs with
  | None => None
  | Some tag => tag_value tag
  end.

(** [validateImageEvent], useUserImagePosts.ts lines 6-26. *)
Definition validateImageEvent (event : NostrEvent) : bool :=
  if negb (kind event =? 20)%Z then false
  else
    let title := find_tag_value "title" (tags event) in
    let imeta := find_tag "imeta" (tags event) in
    if negb (Js.truthy title) && negb (Js.defined imeta) then false
    else
      match imeta with
      | Some im =>
          if Js.truthy (tag_value im)
             && negb (match tag_value im with
                      | Some v => Js.includes v "url"
                      | None => false
                      end)
          then false
          else true
      | None => true
      end.

(** [validateReactionEvent] of the reaction hooks. *)
Definition validateReactionEvent (event : NostrEvent) : bool :=
  if negb (kind event =? 7)%Z then false
  else
    match find_tag "e" (tags event) with
    | None => false
    | Some eTag =>
        if negb (Js.truthy (tag_value eTag)) then false
        else
          match find_tag "p" (tags event) with
          | None => false
          | Some pTag =>
              if negb (Js.truthy (tag_value pTag)) then false else true
          end
    end.

(** ** Cancellation signals *)

(** An [AbortSignal] as the hooks build it: the signal handed in by the query
    framework, [AbortSignal.timeout(ms)], or [AbortSignal.any([...])]. *)
Inductive AbortSignal : Type :=
| CallerSignal (token : nat)
| TimeoutSignal (ms : Z)
| AnySignal (signals : list AbortSignal).

(** What has happened by some instant: which caller tokens were cancelled
    and how many milliseconds have gone by since the signal was created. *)
Record Instant : Type := mkInstant {
  cancelled : nat -> bool;
  elapsed : Z
}.

(** Whether a signal is aborted at an instant. *)
Fixpoint aborted (now : Instant) (sg : AbortSignal) : bool :=
  match sg with
  | CallerSignal token => cancelled now token
  | TimeoutSignal ms => (ms <=? elapsed now)%Z
  | AnySignal signals => existsb (aborted now) signals
  end.

(** ** Relay pool, signer and cache *)

(** The filter objects the hooks send. [tag_e] is the ['#e'] member. *)
Record Filter : Type := mkFilter {
  kinds : list Z;
  authors : option (list string);
  tag_e : option (list string);
  limit : Z;
  until : option Z
}.

(** The options object given to [new NPool(...)]. [open] only wraps the
    address in a connection, so the pool is described by its two routers. *)
Record NPoolOpts : Type := mkOpts {
  reqRouter : list Filter -> list (string * list Filter);
  eventRouter : NostrEvent -> list string
}.

(** A pool object: its identity on the heap and how it was configured. *)
Record NPool : Type := mkPool {
  pool_ref : nat;
  pool_opts : NPoolOpts
}.

(** The pool a request goes to: the shared discovery pool of
    useUserImagePosts.ts, or the application pool obtained from [useNostr]. *)
Inductive PoolTarget : Type :=
| DiscoveryPool (pool : NPool)
| NostrPool.

(** The unsigned fields passed to [signEvent]. *)
Record EventTemplate : Type := mkTemplate {
  t_kind : Z;
  t_content : string;
  t_tags : list (list string);
  t_created_at : Z
}.

(** One call to a collaborator. *)
Inductive Call : Type :=
| CallNewPool (ref : nat)
| CallQuery (target : PoolTarget) (filters : list Filter) (signal : AbortSignal)
| CallSignEvent (signer : nat) (template : EventTemplate)
| CallPublish (target : PoolTarget) (event : NostrEvent)
| CallInvalidate (queryKey : list string).

Definition is_sign (c : Call) : bool :=
  match c with CallSignEvent _ _ => true | _ => false end.

Definition is_publish (c : Call) : bool :=
  match c with CallPublish _ _ => true | _ => false end.

(** The signals of the queries found in a log, oldest first. *)
Definition query_signals (log : list Call) : list AbortSignal :=
  flat_map (fun c => match c with
                     | CallQuery _ _ sg => [sg]
                     | _ => []
                     end) log.

(** [useCurrentUser]: the viewer, with a signer when one is logged in. *)
Record User : Type := mkUser {
  user_pubkey : string;
  signer : option nat
}.

(** [user?.signer] *)
Definition signer_of (user : option User) : option nat :=
  match user with
  | None => None
  | Some u => signer u
  end.

(** The behaviour of the collaborators. Each answer may depend on the calls
    made so far. [date_now] is [Date.now()], in milliseconds. *)
Record Collaborators : Type := mkCollab {
  relay_query : list Call -> PoolTarget -> list Filter -> AbortSignal
                -> Js.error + list NostrEvent;
  relay_event : list Call -> PoolTarget -> NostrEvent -> Js.error + unit;
  signer_signEvent : list Call -> nat -> EventTemplate -> Js.error + NostrEvent;
  date_now : list Call -> Z
}.

(** The mutable state: the module variable [sharedDiscoveryPool], the next
    free heap reference, and the log of calls, oldest first. *)
Record World : Type := mkWorld {
  sharedDiscoveryPool : option NPool;
  next_ref : nat;
  calls : list Call
}.

Definition initial_world : World :=
  {| sharedDiscoveryPool := None; next_ref := 0%nat; calls := [] |}.

Definition record (c : Call) (w : World) : World :=
  {| sharedDiscoveryPool := sharedDiscoveryPool w;
     next_ref := next_ref w;
     calls := calls w ++ [c] |}.

(** ** The monad of the hooks: state and exceptions *)

Definition Hook (A : Type) : Type := World -> (Js.error + A) * World.

Definition ret {A : Type} (a : A) : Hook A := fun w => (inr a, w).

Definition throw {A : Type} (e : Js.error) : Hook A := fun w => (inl e, w).

Definition bind {A B : Type} (m : Hook A) (k : A -> Hook B) : Hook B :=
  fun w =>
    match m w with
    | (inl e, w') => (inl e, w')
    | (inr a, w') => k a w'
    end.

(** [try { m } catch (error) { console.error(..., error); throw error }] *)
Definition try_rethrow {A : Type} (m : Hook A) : Hook A :=
  fun w =>
    match m w with
    | (inl e, w') => (inl e, w')
    | (inr a, w') => (inr a, w')
    end.

#[global] Instance hook_ret : MRet Hook := @ret.
#[global] Instance hook_bind : MBind Hook := fun A B k m => bind m k.

(** ** Calls to the collaborators *)

Section Hooks.

Variable env : Collaborators.

(** [await pool.query(filters, { signal })] *)
Definition pool_query (target : PoolTarget) (filters : list Filter)
           (signal : AbortSignal) : Hook (list NostrEvent) :=
  fun w =>
    (relay_query env (calls w) target filters signal,
     record (CallQuery target filters signal) w).

(** [await pool.event(event)] *)
Definition pool_event (target : PoolTarget) (event : NostrEvent) : Hook unit :=
  fun w =>
    (relay_event env (calls w) target event,
     record (CallPublish target event) w).

(** [await signer.signEvent(template)] *)
Definition signEvent (sgn : nat) (template : EventTemplate) : Hook NostrEvent :=
  fun w =>
    (signer_signEvent env (calls w) sgn template,
     record (CallSignEvent sgn template) w).

(** [Math.floor(Date.now() / 1000)] *)
Definition now_seconds : Hook Z :=
  fun w => (inr (date_now env (calls w) / 1000)%Z, w).

(** [queryClient.invalidateQueries({ queryKey })] *)
Definition invalidateQueries (queryKey : list string) : Hook unit :=
  fun w => (inr tt, record (CallInvalidate queryKey) w).

(** *** The shared discovery pool, useUserImagePosts.ts lines 28-60 *)

Definition discoveryRelays : list string :=
  [ "wss://relay.nostr.band"; "wss://relay.primal.net";
    "wss://relay.olas.app"; "wss://nos.lol"; "wss://relay.snort.social";
    "wss://purplepag.es" ].

(** A [Map] filled by [set] in a loop: a later [set] of a key already
    present replaces its value and keeps its place. *)
Fixpoint map_set {V : Type} (key : string) (v : V) (m : list (string * V))
  : list (string * V) :=
  match m with
  | [] => [(key, v)]
  | (k, v') :: rest =>
      if String.eqb k key then (k, v) :: rest
      else (k, v') :: map_set key v rest
  end.

Definition discovery_opts : NPoolOpts :=
  {| reqRouter := fun filters =>
       fold_left (fun relayMap url => map_set url filters relayMap)
                 discoveryRelays [];
     eventRouter := fun _ => firstn 3 discoveryRelays |}.

(** [new NPool({...})]: a fresh object. *)
Definition new_NPool (opts : NPoolOpts) : Hook NPool :=
  fun w =>
    (inr {| pool_ref := next_ref w; pool_opts := opts |},
     {| sharedDiscoveryPool := sharedDiscoveryPool w;
        next_ref := S (next_ref w);
        calls := calls w ++ [CallNewPool (next_ref w)] |}).

Definition read_shared : Hook (option NPool) :=
  fun w => (inr (sharedDiscoveryPool w), w).

Definition write_shared (p : NPool) : Hook unit :=
  fun w =>
    (inr tt,
     {| sharedDiscoveryPool := Some p;
        next_ref := next_ref w;
        calls := calls w |}).

Definition getDiscoveryPool : Hook NPool :=
  shared ← read_shared;
  match shared with
  | Some pool => mret pool
  | None =>
      pool ← new_NPool discovery_opts;
      _ ← write_shared pool;
      mret pool
  end.

(** *** The paginated query, useUserImagePosts.ts lines 62-123 *)

(** [validEvents.reduce((acc, event) => { if (!acc.find(e => e.id ===
    event.id)) acc.push(event); return acc }, [])] *)
Definition push_unique (acc : list NostrEvent) (event : NostrEvent)
  : list NostrEvent :=
  if negb (Js.defined (List.find (fun e => String.eqb (id e) (id event)) acc))
  then acc ++ [event]
  else acc.

Definition dedupe (validEvents : list NostrEvent) : list NostrEvent :=
  fold_left push_unique validEvents [].

(** The comparator [(a, b) => b.created_at - a.created_at]. *)
Definition newest_first (a b : NostrEvent) : Z :=
  (created_at b - created_at a)%Z.

(** [Array.prototype.sort(cmp)]: the stable sort; [a] stays before [b]
    when [cmp(a, b) <= 0]. *)
Fixpoint sort_insert {A : Type} (cmp : A -> A -> Z) (x : A) (sorted : list A)
  : list A :=
  match sorted with
  | [] => [x]
  | y :: rest =>
      if (cmp x y <=? 0)%Z then x :: y :: rest
      else y :: sort_insert cmp x rest
  end.

Fixpoint array_sort {A : Type} (cmp : A -> A -> Z) (arr : list A) : list A :=
  match arr with
  | [] => []
  | x :: rest => sort_insert cmp x (array_sort cmp rest)
  end.

(** What [queryFn] resolves to. *)
Record Page : Type := mkPage {
  events : list NostrEvent;
  nextCursor : option Z
}.

Definition page_filter (pk : string) (pageParam : option Z) : Filter :=
  {| kinds := [20%Z];
     authors := Some [pk];
     tag_e := None;
     limit := 15;
     until := if Js.truthy_number pageParam then pageParam else None |}.

(** The page computed from the raw answer of the pool, lines 92-111. *)
Definition page_of (filter : Filter) (raw : list NostrEvent) : Page :=
  let validEvents := List.filter validateImageEvent raw in
  let uniqueEvents := dedupe validEvents in
  let sortedEvents := array_sort newest_first uniqueEvents in
  {| events := sortedEvents;
     nextCursor :=
       if (Z.of_nat (length raw) <? limit filter)%Z then None
       else created_at <$> last sortedEvents |}.

(** [queryFn] of [useUserImagePosts(pubkey)]. *)
Definition useUserImagePosts_queryFn (pubkey : option string)
           (pageParam : option Z) (signal : AbortSignal) : Hook Page :=
  if negb (Js.truthy pubkey) then
    mret {| events := []; nextCursor := None |}
  else
    let pk := default "" pubkey in
    let querySignal := AnySignal [signal; TimeoutSignal 10000] in
    discoveryPool ← getDiscoveryPool;
    try_rethrow (
      let filter := page_filter pk pageParam in
      raw ← pool_query (DiscoveryPool discoveryPool) [filter] querySignal;
      mret (page_of filter raw)).

(** [getNextPageParam] and [enabled] of the same hook. *)
Definition getNextPageParam (lastPage : Page) : option Z := nextCursor lastPage.

Definition enabled (pubkey : option string) : bool := Js.truthy pubkey.

(** *** Reactions *)

(** One entry of the aggregate: [{ count, users, hasReacted }]. *)
Record ReactionEntry : Type := mkEntry {
  count : Z;
  users : list string;
  hasReacted : bool
}.

Definition increment (e : ReactionEntry) : ReactionEntry :=
  {| count := count e + 1; users := users e; hasReacted := hasReacted e |}.

Definition push_user (pk : string) (e : ReactionEntry) : ReactionEntry :=
  {| count := count e; users := users e ++ [pk]; hasReacted := hasReacted e |}.

Definition mark_reacted (e : ReactionEntry) : ReactionEntry :=
  {| count := count e; users := users e; hasReacted := true |}.

(** [user && reaction.pubkey === user.pubkey] *)
Definition is_viewer (user : option User) (reaction : NostrEvent) : bool :=
  match user with
  | None => false
  | Some u => String.eqb (pubkey reaction) (user_pubkey u)
  end.

(** The body of the [reduce] callback of [useReactions], lines 39-57. The
    accumulator is an object literal: under a key inherited from
    [Object.prototype] the lookup [acc[content]] finds the inherited member,
    no entry is created, and [.users.push] fails on [undefined]. *)
Definition count_reaction (user : option User)
           (acc : gmap string ReactionEntry) (reaction : NostrEvent)
  : Js.error + gmap string ReactionEntry :=
  let content := Js.or_else (content reaction) "+" in
  if Js.inherited content then
    inl (Js.TypeError "Cannot read properties of undefined (reading 'push')")
  else
    let acc1 :=
      match acc !! content with
      | None => <[content := {| count := 0; users := []; hasReacted := false |}]> acc
      | Some _ => acc
      end in
    let acc2 := alter increment content acc1 in
    let acc3 := alter (push_user (pubkey reaction)) content acc2 in
    let acc4 :=
      if is_viewer user reaction then alter mark_reacted content acc3
      else acc3 in
    inr acc4.

Definition aggregate (user : option User) (validReactions : list NostrEvent)
  : Js.error + gmap string ReactionEntry :=
  fold_left (fun acc reaction =>
               match acc with
               | inl e => inl e
               | inr m => count_reaction user m reaction
               end)
            validReactions (inr ∅).

Definition reactions_filter (eventId : string) : Filter :=
  {| kinds := [7%Z]; authors := None; tag_e := Some [eventId];
     limit := 100; until := None |}.

(** [queryFn] of [useReactions(eventId)]; [c_signal] is [c.signal]. *)
Definition useReactions_queryFn (user : option User) (eventId : string)
           (c_signal : AbortSignal) : Hook (gmap string ReactionEntry) :=
  let signal := AnySignal [c_signal; TimeoutSignal 3000] in
  raw ← pool_query NostrPool [reactions_filter eventId] signal;
  let validReactions := List.filter validateReactionEvent raw in
  match aggregate user validReactions with
  | inl e => throw e
  | inr reactionCounts => mret reactionCounts
  end.

(** The variables of the add-reaction mutation; an absent [reaction] is
    ['+'] and an absent [kind] is ['20']. *)
Record ReactVars : Type := mkReactVars {
  rv_eventId : string;
  rv_authorPubkey : string;
  rv_reaction : option string;
  rv_kind : option string
}.

(** [mutationFn] of [useReactToPost]. *)
Definition useReactToPost_mutationFn (user : option User) (vars : ReactVars)
  : Hook NostrEvent :=
  let reaction := default "+" (rv_reaction vars) in
  let knd := default "20" (rv_kind vars) in
  match signer_of user with
  | None => throw (Js.Error "User not logged in")
  | Some sgn =>
      created ← now_seconds;
      event ← signEvent sgn
        {| t_kind := 7;
           t_content := reaction;
           t_tags := [ ["e"; rv_eventId vars];
                       ["p"; rv_authorPubkey vars];
                       ["k"; knd] ];
           t_created_at := created |};
      _ ← pool_event NostrPool event;
      mret event
  end.

(** The variables of the remove-reaction mutation. *)
Record RemoveVars : Type := mkRemoveVars {
  rm_eventId : string;
  rm_reaction : option string
}.

Definition own_reactions_filter (viewer eventId : string) : Filter :=
  {| kinds := [7%Z]; authors := Some [viewer]; tag_e := Some [eventId];
     limit := 10; until := None |}.

(** [r => (r.content || '+') === reaction] *)
Definition same_reaction (reaction : string) (r : NostrEvent) : bool :=
  String.eqb (Js.or_else (content r) "+") reaction.

(** [mutationFn] of [useRemoveReaction]. *)
Definition useRemoveReaction_mutationFn (user : option User)
           (vars : RemoveVars) : Hook NostrEvent :=
  let reaction := default "+" (rm_reaction vars) in
  match user with
  | None => throw (Js.Error "User not logged in")
  | Some u =>
      match signer u with
      | None => throw (Js.Error "User not logged in")
      | Some sgn =>
          existingReactions ←
            pool_query NostrPool
              [own_reactions_filter (user_pubkey u) (rm_eventId vars)]
              (TimeoutSignal 3000);
          match List.find (same_reaction reaction) existingReactions with
          | None => throw (Js.Error "Reaction not found")
          | Some reactionToRemove =>
              created ← now_seconds;
              deletionEvent ← signEvent sgn
                {| t_kind := 5;
                   t_content := "Removing reaction";
                   t_tags := [ ["e"; id reactionToRemove] ];
                   t_created_at := created |};
              _ ← pool_event NostrPool deletionEvent;
              mret deletionEvent
          end
      end
  end.

(** A mutation as the mutation framework runs it: [onSuccess] follows a
    [mutationFn] that resolved, and is skipped after one that threw. Both
    reaction mutations invalidate [['reactions', eventId]]. *)
Definition mutate {A : Type} (mutationFn : Hook A) (eventId : string)
  : Hook A :=
  data ← mutationFn;
  _ ← invalidateQueries ["reactions"; eventId];
  mret data.

Definition reactToPost (user : option User) (vars : ReactVars)
  : Hook NostrEvent :=
  mutate (useReactToPost_mutationFn user vars) (rv_eventId vars).

Definition removeReaction (user : option User) (vars : RemoveVars)
  : Hook NostrEvent :=
  mutate (useRemoveReaction_mutationFn user vars) (rm_eventId vars).

End Hooks.

Arguments push_unique acc event /.
Arguments page_filter pk pageParam /.

(** ** Vocabulary of the specification *)

(** [tag] is the first tag of [tgs] named [wanted]. *)
Definition first_tag (wanted : string) (tgs : list (list string))
           (tag : list string) : Prop :=
  ∃ before after,
    tgs = before ++ tag :: after
    ∧ tag_named wanted tag = true
    ∧ Forall (fun t => tag_named wanted t = false) before.

(** [needle] occurs in [hay]. *)
Definition occurs_in (needle hay : string) : Prop :=
  ∃ before after, hay = before +:+ needle +:+ after.

(** The event carries a title tag with a value. *)
Definition has_title (e : NostrEvent) : Prop :=
  ∃ tag v, In tag (tags e) ∧ tag_named "title" tag = true
           ∧ tag_value tag = Some v ∧ v ≠ "".

(** The event carries an imeta tag whose value contains [url]. *)
Definition has_url_imeta (e : NostrEvent) : Prop :=
  ∃ tag v, In tag (tags e) ∧ tag_named "imeta" tag = true
           ∧ tag_value tag = Some v ∧ occurs_in "url" v.

(** Newest first: the order of a page. *)
Definition not_older (a b : NostrEvent) : Prop := (created_at b <= created_at a)%Z.

(** A signal that is aborted as soon as the caller's signal is or [ms]
    milliseconds have passed. *)
Definition caller_or_timeout (caller : AbortSignal) (ms : Z) (sg : AbortSignal)
  : Prop :=
  ∀ now, aborted now sg = aborted now caller || (ms <=? elapsed now)%Z.

(** A signal that combines some caller token with some timeout. *)
Definition combined_signal (sg : AbortSignal) : Prop :=
  ∃ token ms, caller_or_timeout (CallerSignal token) ms sg.

(** The calls a run added to the log. *)
Definition new_calls (before after : World) : list Call :=
  drop (length (calls before)) (calls after).

(** No call of the list signs or publishes. *)
Definition no_sign_no_publish (log : list Call) : Prop :=
  Forall (fun c => is_sign c = false ∧ is_publish c = false) log.

(** [reaction] with its content replaced. *)
Definition with_content (c : string) (r : NostrEvent) : NostrEvent :=
  {| id := id r; pubkey := pubkey r; created_at := created_at r;
     kind := kind r; tags := tags r; content := c; sig := sig r |}.

(** The state after [n] further calls of [getDiscoveryPool]. *)
Definition after_calls (n : nat) (w : World) : World :=
  Nat.iter n (fun w' => snd (getDiscoveryPool w')) w.

(** The pool [getDiscoveryPool] returns in a state, and the state it leaves. *)
Definition pool_at (w : World) : NPool :=
  default {| pool_ref := next_ref w; pool_opts := discovery_opts |}
          (sharedDiscoveryPool w).

Definition world_with_pool (w : World) : World := snd (getDiscoveryPool w).

(** What the discovery pool answers to the query of one page fetch. *)
Definition pool_answer (env : Collaborators) (pk : string)
           (pageParam : option Z) (signal : AbortSignal) (w : World)
  : Js.error + list NostrEvent :=
  relay_query env (calls (world_with_pool w)) (DiscoveryPool (pool_at w))
              [page_filter pk pageParam]
              (AnySignal [signal; TimeoutSignal 10000]).

(** The raw events of one page fetch: none when no query is made or when
    the query fails. *)
Definition raw_events (env : Collaborators) (pubkey : option string)
           (pageParam : option Z) (signal : AbortSignal) (w : World)
  : list NostrEvent :=
  if Js.truthy pubkey then
    match pool_answer env (default "" pubkey) pageParam signal w with
    | inr raw => raw
    | inl _ => []
    end
  else [].

(** The entry created for a content seen for the first time. *)
Definition fresh_entry : ReactionEntry :=
  {| count := 0; users := []; hasReacted := false |}.

(** An entry after one more reaction [r] was counted into it. *)
Definition counted (user : option User) (r : NostrEvent) (old : ReactionEntry)
  : ReactionEntry :=
  {| count := count old + 1;
     users := users old ++ [pubkey r];
     hasReacted := hasReacted old || is_viewer user r |}.

(** ** Fixtures *)

Module Fixture.

Definition image (ident : string) (at_ : Z) (tgs : list (list string))
  : NostrEvent :=
  {| id := ident; pubkey := "alice"; created_at := at_; kind := 20;
     tags := tgs; content := ""; sig := "" |}.

Definition reaction (ident author what : string) : NostrEvent :=
  {| id := ident; pubkey := author; created_at := 1700000000; kind := 7;
     tags := [ ["e"; "post1"]; ["p"; "alice"] ]; content := what;
     sig := "" |}.

(** A titled picture whose imeta value has no [url]. *)
Definition titled_bad_imeta : NostrEvent :=
  image "a1" 100 [ ["title"; "Sunset"]; ["imeta"; "dim 100x100"] ].

(** An imeta tag with no value at all. *)
Definition bare_imeta : NostrEvent := image "a2" 100 [ ["imeta"] ].

Definition good : NostrEvent :=
  image "a3" 100 [ ["title"; "Sunset"]; ["imeta"; "url https://x/y.jpg"] ].

(** An answer with a repeated identifier, a rejected event and timestamps
    out of order. *)
Definition mixed : list NostrEvent :=
  [ good;
    image "a4" 300 [ ["imeta"; "url https://x/z.jpg"] ];
    image "a3" 100 [ ["title"; "Sunset again"] ];
    titled_bad_imeta;
    image "a5" 200 [ ["title"; "Noon"] ] ].

(** Fifteen kind-20 events that carry neither title nor imeta. *)
Definition fifteen_untagged : list NostrEvent :=
  map (fun n => image (String (Ascii.ascii_of_nat (65 + n)) "") (Z.of_nat n) [])
      (seq 0 15).

(** A relay that answers every query with [answer] and accepts every
    event; a signer that fills in the fields it is given. *)
Definition collaborators (answer : list NostrEvent) : Collaborators :=
  {| relay_query := fun _ _ _ _ => inr answer;
     relay_event := fun _ _ _ => inr tt;
     signer_signEvent := fun _ _ t =>
       inr {| id := "signed"; pubkey := "viewer";
              created_at := t_created_at t; kind := t_kind t;
              tags := t_tags t; content := t_content t; sig := "sig" |};
     date_now := fun _ => 1700000000123 |}.

(** Three reactions to one post: two likes and a flame, the flame being
    the viewer's. *)
Definition three_reactions : list NostrEvent :=
  [ reaction "r1" "bob" "+"; reaction "r2" "carol" "+";
    reaction "r3" "viewer" "🔥" ].

(** A reaction of the viewer published with empty content. *)
Definition silent_like : NostrEvent := reaction "r4" "viewer" "".

Definition viewer : User := {| user_pubkey := "viewer"; signer := Some 0%nat |}.

Definition anonymous : User := {| user_pubkey := "viewer"; signer := None |}.

End Fixture.

(** ** The notification bell *)

(** [NotificationBell] of the notification component. The hooks it reads
    ([useCurrentUser], [useNotificationsWithReadStatus],
    [useUnreadNotificationCount]) and its [open] state are inputs; the
    element it returns is described by the attributes and children the
    component computes. *)
Module Bell.

Inductive Variant : Type := Default | Mobile.

(** [NotificationBellProps]; an absent [variant] is ['default']. *)
Record Props : Type := mkProps {
  className : option string;
  variant : option Variant
}.

(** [`${v}`] for a [string | undefined]. *)
Definition interpolate (v : option string) : string := default "undefined" v.

(** A child that is a string or a number. *)
Inductive Child : Type :=
| Text (s : string)
| Number (n : Z).

Record Badge : Type := mkBadge {
  badge_variant : string;
  badge_className : string;
  badge_child : Child
}.

Record Button : Type := mkButton {
  button_variant : string;
  button_size : option string;
  button_className : string;
  bell_className : string;
  button_text : option string;
  button_badge : option Badge
}.

Record Content : Type := mkContent {
  content_className : string;
  align : string;
  side : string;
  sideOffset : Z
}.

Record Popover : Type := mkPopover {
  popover_open : bool;
  trigger : Button;
  popover_content : Content
}.

(** [unreadCount > 0 && (<Badge ...>{unreadCount > 99 ? '99+' :
    unreadCount}</Badge>)] *)
Definition badge (cls : string) (unreadCount : Z) : option Badge :=
  if (0 <? unreadCount)%Z then
    Some {| badge_variant := "destructive";
            badge_className := cls;
            badge_child := if (99 <? unreadCount)%Z then Text "99+"
                           else Number unreadCount |}
  else None.

(** [`... ${isLoading ? 'animate-pulse' : ''}`] *)
Definition pulse (isLoading : bool) : string :=
  if isLoading then "animate-pulse" else "".

(** The component: [None] is the [null] it returns for no user. *)
Definition NotificationBell (props : Props) (open : bool)
           (user : option User) (isLoading : bool) (unreadCount : Z)
  : option Popover :=
  match user with
  | None => None
  | Some _ =>
      match default Default (variant props) with
      | Mobile =>
          Some {| popover_open := open;
                  trigger :=
                    {| button_variant := "ghost";
                       button_size := Some "sm";
                       button_className :=
                         "relative " +:+ interpolate (className props);
                       bell_className := "h-5 w-5 " +:+ pulse isLoading;
                       button_text := None;
                       button_badge :=
                         badge "absolute -top-1 -right-1 h-5 w-5 rounded-full p-0 flex items-center justify-center text-xs"
                               unreadCount |};
                  popover_content :=
                    {| content_className := "w-80 p-0"; align := "end";
                       side := "bottom"; sideOffset := 8 |} |}
      | Default =>
          Some {| popover_open := open;
                  trigger :=
                    {| button_variant := "ghost";
                       button_size := None;
                       button_className :=
                         "w-full justify-start relative "
                         +:+ interpolate (className props);
                       bell_className := "mr-2 h-4 w-4 " +:+ pulse isLoading;
                       button_text := Some "Notifications";
                       button_badge :=
                         badge "ml-auto h-5 w-5 rounded-full p-0 flex items-center justify-center text-xs"
                               unreadCount |};
                  popover_content :=
                    {| content_className := "w-80 p-0"; align := "start";
                       side := "right"; sideOffset := 8 |} |}
      end
  end.

(** [handleOpenChange]: the next value of the [open] state. *)
Definition handleOpenChange (newOpen : bool) (open : bool) : bool := newOpen.

End Bell.

(** ** Further vocabulary *)

(** The pool references constructed in a log, and the pools, filters and
    cache keys its calls name. *)
Definition new_pools (log : list Call) : list nat :=
  flat_map (fun c => match c with CallNewPool r => [r] | _ => [] end) log.

Definition query_targets (log : list Call) : list PoolTarget :=
  flat_map (fun c => match c with CallQuery t _ _ => [t] | _ => [] end) log.

Definition query_filters (log : list Call) : list (list Filter) :=
  flat_map (fun c => match c with CallQuery _ fs _ => [fs] | _ => [] end) log.

Definition is_invalidate (c : Call) : bool :=
  match c with CallInvalidate _ => true | _ => false end.

(** One request of the paginated query, and a series of them run one after
    the other in the same process. *)
Record FetchRequest : Type := mkFetch {
  fr_pubkey : option string;
  fr_pageParam : option Z;
  fr_signal : AbortSignal
}.

Definition run_fetches (env : Collaborators) (reqs : list FetchRequest)
           (w : World) : World :=
  fold_left (fun w' r =>
               snd (useUserImagePosts_queryFn env (fr_pubkey r)
                      (fr_pageParam r) (fr_signal r) w'))
            reqs w.

(** The key a reaction is counted under, the reactions of a list counted
    under a key, and the entry they make. *)
Definition reaction_key (r : NostrEvent) : string := Js.or_else (content r) "+".

Definition reactions_under (key : string) (l : list NostrEvent)
  : list NostrEvent :=
  List.filter (fun r => String.eqb (reaction_key r) key) l.

Definition entry_of (user : option User) (rs : list NostrEvent)
  : option ReactionEntry :=
  match rs with
  | [] => None
  | _ => Some {| count := Z.of_nat (length rs);
                 users := map pubkey rs;
                 hasReacted := existsb (is_viewer user) rs |}
  end.

(** The template [useReactToPost] hands to the signer at time [created]. *)
Definition reaction_template (vars : ReactVars) (created : Z) : EventTemplate :=
  {| t_kind := 7;
     t_content := default "+" (rv_reaction vars);
     t_tags := [ ["e"; rv_eventId vars];
                 ["p"; rv_authorPubkey vars];
                 ["k"; default "20" (rv_kind vars)] ];
     t_created_at := created |}.

(** The template [useRemoveReaction] hands to the signer for [target]. *)
Definition deletion_template (target : NostrEvent) (created : Z)
  : EventTemplate :=
  {| t_kind := 5;
     t_content := "Removing reaction";
     t_tags := [ ["e"; id target] ];
     t_created_at := created |}.

(** A signer that keeps the kind and the tags it is given. *)
Definition faithful_signer (env : Collaborators) : Prop :=
  ∀ log sgn t ev,
    signer_signEvent env log sgn t = inr ev →
    kind ev = t_kind t ∧ tags ev = t_tags t.

(** What holds of the state of a process that has only run page fetches:
    either no pool exists and nothing was asked, or the one pool of
    reference 0 exists and every query went to it. *)
Definition one_pool (w : World) : Prop :=
  match sharedDiscoveryPool w with
  | None =>
      new_pools (calls w) = [] ∧ query_targets (calls w) = []
      ∧ next_ref w = 0%nat
  | Some p =>
      p = pool_at initial_world ∧ new_pools (calls w) = [0%nat]
      ∧ Forall (fun t => t = DiscoveryPool (pool_at initial_world))
               (query_targets (calls w))
  end.

(** An entry after the reactions [rs] were counted into it one by one, and
    the entry under a key after the reactions [rs] of that key were counted
    into an aggregate that held [old] there. *)
Definition counted_all (user : option User) (rs : list NostrEvent)
           (start : ReactionEntry) : ReactionEntry :=
  fold_left (fun e r => counted user r e) rs start.

Definition merged (user : option User) (old : option ReactionEntry)
           (rs : list NostrEvent) : option ReactionEntry :=
  match rs with
  | [] => old
  | _ => Some (counted_all user rs (default fresh_entry old))
  end.

(** The error of [.users.push] on an inherited member. *)
Definition push_on_undefined : Js.error :=
  Js.TypeError "Cannot read properties of undefined (reading 'push')".

(** ** Further fixtures *)

Module Sample.

(** Fifteen titled pictures, the oldest first. *)
Definition fifteen_titled : list NostrEvent :=
  map (fun n => Fixture.image (String (Ascii.ascii_of_nat (65 + n)) "")
                              (1000 + Z.of_nat n) [ ["title"; "Picture"] ])
      (seq 0 15).

(** A relay that rejects every query and every event. *)
Definition offline : Collaborators :=
  {| relay_query := fun _ _ _ _ => inl (Js.Rejected "offline");
     relay_event := fun _ _ _ => inl (Js.Rejected "offline");
     signer_signEvent := signer_signEvent (Fixture.collaborators []);
     date_now := fun _ => 1700000000123 |}.

(** A valid reaction whose content names a member of [Object.prototype]. *)
Definition constructor_reaction : NostrEvent :=
  Fixture.reaction "r9" "bob" "constructor".

Definition like_vars : ReactVars :=
  {| rv_eventId := "post1"; rv_authorPubkey := "alice";
     rv_reaction := None; rv_kind := None |}.

End Sample.

(** * Properties *)

(** ** Strings and tags *)

Example includes_url : Js.includes "url https://x/y.jpg" "url" = true.
Proof. reflexivity. Qed.

Example includes_no_url : Js.includes "dim 100x100" "url" = false.
Proof. reflexivity. Qed.

Example validate_good : validateImageEvent Fixture.good = true.
Proof. reflexivity. Qed.

Example validate_titled_bad_imeta :
  validateImageEvent Fixture.titled_bad_imeta = false.
Proof. reflexivity. Qed.

Example validate_reaction :
  validateReactionEvent (Fixture.reaction "r1" "bob" "+") = true.
Proof. reflexivity. Qed.

Example dedupe_mixed :
  map id (dedupe (List.filter validateImageEvent Fixture.mixed))
  = ["a3"; "a4"; "a5"].
Proof. reflexivity. Qed.

Example reqRouter_all_relays :
  map fst (reqRouter discovery_opts []) = discoveryRelays
  ∧ length (eventRouter discovery_opts Fixture.good) = 3%nat.
Proof. split; reflexivity. Qed.

Example inherited_key_throws :
  aggregate None [Fixture.reaction "r9" "bob" "constructor"]
  = inl (Js.TypeError "Cannot read properties of undefined (reading 'push')").
Proof. reflexivity. Qed.

Lemma append_cons (c : Ascii.ascii) (a b : string) :
  String c a +:+ b = String c (a +:+ b).
Proof. reflexivity. Qed.

Lemma append_empty (b : string) : "" +:+ b = b.
Proof. reflexivity. Qed.

Lemma prefix_app (p s : string) :
  String.prefix p s = true ↔ ∃ rest, s = p +:+ rest.
Proof.
  revert s. induction p as [|c p IH]; intros s.
  - split; [intros _; exists s; by rewrite append_empty | by destruct s].
  - destruct s as [|d s].
    + split; [done | intros [rest H]; discriminate].
    + change (String.prefix (String c p) (String d s)) with
        (if Ascii.ascii_dec c d then String.prefix p s else false).
      destruct (Ascii.ascii_dec c d) as [->|Hne].
      * rewrite IH. split; intros [rest H]; exists rest;
          rewrite append_cons in *; congruence.
      * split; [done | intros [rest H]; rewrite append_cons in H; congruence].
Qed.

Lemma includes_occurs (hay needle : string) :
  Js.includes hay needle = true ↔ occurs_in needle hay.
Proof.
  unfold occurs_in. induction hay as [|c hay IH].
  - change (Js.includes "" needle) with (String.prefix needle "" || false).
    rewrite orb_false_r, prefix_app. split.
    + intros [rest H]. by exists "", rest.
    + intros [[|d before] [after H]]; [by exists after | discriminate].
  - change (Js.includes (String c hay) needle)
      with (String.prefix needle (String c hay) || Js.includes hay needle).
    rewrite orb_true_iff, prefix_app, IH. split.
    + intros [[rest H] | [before [after H]]].
      * by exists "", rest.
      * exists (String c before), after. rewrite append_cons. by rewrite H.
    + intros [[|d before] [after H]].
      * left. by exists after.
      * right. exists before, after. rewrite append_cons in H. congruence.
Qed.

Lemma find_tag_first (wanted : string) (tgs : list (list string)) tag :
  find_tag wanted tgs = Some tag ↔ first_tag wanted tgs tag.
Proof.
  unfold find_tag, first_tag. induction tgs as [|t tgs IH]; simpl.
  - split; [done | intros ([|??] & ? & H & _); discriminate].
  - destruct (tag_named wanted t) eqn:Ht.
    + split.
      * intros [= ->]. by exists [], tgs.
      * intros ([|t' before] & after & H & Hn & Hb); simpl in H.
        -- congruence.
        -- inversion Hb; subst. injection H as -> _. congruence.
    + rewrite IH. split.
      * intros (before & after & -> & Hn & Hb). exists (t :: before), after.
        repeat split; [done | by constructor].
      * intros ([|t' before] & after & H & Hn & Hb); simpl in H.
        -- injection H as -> _. congruence.
        -- injection H as -> ->. inversion Hb; subst. by exists before, after.
Qed.

Lemma find_tag_none (wanted : string) (tgs : list (list string)) :
  find_tag wanted tgs = None ↔ Forall (fun t => tag_named wanted t = false) tgs.
Proof.
  unfold find_tag. induction tgs as [|t tgs IH]; simpl.
  - split; [constructor | done].
  - destruct (tag_named wanted t) eqn:Ht.
    + split; [done | intros H; inversion H; congruence].
    + rewrite IH. split; [by constructor | intros H; by inversion H].
Qed.

Lemma find_tag_some_in (wanted : string) (tgs : list (list string)) :
  (∃ tag, find_tag wanted tgs = Some tag)
  ↔ ∃ tag, In tag tgs ∧ tag_named wanted tag = true.
Proof.
  split.
  - intros [tag H]. apply find_some in H. by exists tag.
  - intros (tag & Hin & Hn). destruct (find_tag wanted tgs) as [t|] eqn:E.
    + by exists t.
    + apply find_tag_none in E. rewrite List.Forall_forall in E.
      apply E in Hin. congruence.
Qed.

Lemma truthy_spec (o : option string) :
  Js.truthy o = true ↔ ∃ v, o = Some v ∧ v ≠ "".
Proof.
  destruct o as [v|]; simpl.
  - rewrite negb_true_iff, String.eqb_neq. split.
    + intros H. by exists v.
    + intros (v' & [= ->] & H). done.
  - split; [done | intros (v & H & _); discriminate].
Qed.

Lemma truthy_false_spec (o : option string) :
  Js.truthy o = false ↔ o = None ∨ o = Some "".
Proof.
  destruct o as [v|]; simpl.
  - rewrite negb_false_iff, String.eqb_eq. split.
    + intros ->. by right.
    + intros [H | [= ->]]; done.
  - split; [by left | done].
Qed.

(** ** The image-event validator *)

(** What [validateImageEvent] accepts, in terms of the first title tag and
    the first imeta tag of the event. *)
Lemma validateImageEvent_accepts (e : NostrEvent) :
  validateImageEvent e = true
  ↔ kind e = 20%Z
    ∧ (Js.truthy (find_tag_value "title" (tags e)) = true
       ∨ ∃ im, find_tag "imeta" (tags e) = Some im)
    ∧ (∀ im v, find_tag "imeta" (tags e) = Some im →
               tag_value im = Some v → v ≠ "" → Js.includes v "url" = true).
Proof.
  unfold validateImageEvent.
  destruct (Z.eqb_spec (kind e) 20) as [Hk|Hk]; simpl;
    [| split; [done | intros [? _]; done]].
  destruct (find_tag "imeta" (tags e)) as [im|] eqn:Him; simpl.
  - rewrite andb_false_r.
    destruct (tag_value im) as [v|] eqn:Hv; simpl.
    + destruct (String.eqb_spec v "") as [->|Hne]; simpl.
      * split; [|done]. intros _. repeat split; eauto.
        intros im' v' [= <-]. rewrite Hv. intros [= <-]. done.
      * destruct (Js.includes v "url") eqn:Hinc; simpl.
        -- split; [|done]. intros _. repeat split; eauto.
           intros im' v' [= <-]. rewrite Hv. by intros [= <-].
        -- split; [done|]. intros (_ & _ & H).
           specialize (H im v eq_refl Hv Hne). congruence.
    + split; [|done]. intros _. repeat split; eauto.
      intros im' v' [= <-]. rewrite Hv. done.
  - rewrite andb_true_r.
    destruct (Js.truthy (find_tag_value "title" (tags e))) eqn:Ht; simpl.
    + split; [|done]. intros _. repeat split; eauto. done.
    + split; [done|]. intros (_ & [H | [im H]] & _); done.
Qed.

(** A titled picture is still rejected when its imeta value has no [url],
    so carrying a title tag is not enough. *)
Lemma C1_title_is_not_enough :
  ¬ (validateImageEvent Fixture.titled_bad_imeta = true
     ↔ kind Fixture.titled_bad_imeta = 20%Z
       ∧ (has_title Fixture.titled_bad_imeta
          ∨ has_url_imeta Fixture.titled_bad_imeta)).
Proof.
  intros [_ H]. assert (validateImageEvent Fixture.titled_bad_imeta = true) as E.
  { apply H. split; [reflexivity|]. left.
    exists ["title"; "Sunset"], "Sunset". repeat split; [by left | done]. }
  vm_compute in E. discriminate.
Qed.

(** An imeta tag that has no value is accepted without any [url]. *)
Lemma bare_imeta_accepted :
  validateImageEvent Fixture.bare_imeta = true
  ∧ ¬ (has_title Fixture.bare_imeta ∨ has_url_imeta Fixture.bare_imeta).
Proof.
  split; [reflexivity|].
  intros [(tag & v & Hin & _ & Hv & _) | (tag & v & Hin & _ & Hv & _)];
    simpl in Hin; destruct Hin as [<-|[]]; discriminate.
Qed.

(** C1, amended: [validateImageEvent e] is true exactly when [e.kind] is 20,
    the first title tag carries a non-empty value or the event has an imeta
    tag, and the first imeta tag, when there is one, has no value, an empty
    value, or a value in which [url] occurs. *)
Theorem C1_validateImageEvent (e : NostrEvent) :
  validateImageEvent e = true
  ↔ kind e = 20%Z
    ∧ ((∃ tag v, first_tag "title" (tags e) tag
                 ∧ tag_value tag = Some v ∧ v ≠ "")
       ∨ (∃ tag, In tag (tags e) ∧ tag_named "imeta" tag = true))
    ∧ (∀ tag v, first_tag "imeta" (tags e) tag →
                tag_value tag = Some v → v ≠ "" → occurs_in "url" v).
Proof.
  rewrite validateImageEvent_accepts, truthy_spec, find_tag_some_in.
  assert ((∃ v, find_tag_value "title" (tags e) = Some v ∧ v ≠ "")
          ↔ ∃ tag v, first_tag "title" (tags e) tag
                     ∧ tag_value tag = Some v ∧ v ≠ "") as ->.
  { unfold find_tag_value. split.
    - intros (v & H & Hne).
      destruct (find_tag "title" (tags e)) as [tag|] eqn:E; [|done].
      exists tag, v. by rewrite <- find_tag_first.
    - intros (tag & v & Hf & Hv & Hne). apply find_tag_first in Hf.
      exists v. by rewrite Hf. }
  split; intros (Hk & Hor & Hall); (split; [done|]); (split; [done|]).
  - intros tag v Hf Hv Hne. apply find_tag_first in Hf.
    apply includes_occurs. eauto.
  - intros im v Hf Hv Hne. apply find_tag_first in Hf.
    apply includes_occurs. eauto.
Qed.

(** ** Deduplication and ordering of a page *)

Section Sorting.

Context {A : Type} (cmp : A → A → Z).

Lemma sort_insert_perm (x : A) (l : list A) : sort_insert cmp x l ≡ₚ x :: l.
Proof.
  induction l as [|y l IH]; simpl; [done|].
  destruct (cmp x y <=? 0)%Z; [done|].
  rewrite IH. apply perm_swap.
Qed.

Lemma array_sort_perm (l : list A) : array_sort cmp l ≡ₚ l.
Proof.
  induction l as [|x l IH]; simpl; [done|].
  by rewrite sort_insert_perm, IH.
Qed.

(** The order the comparator induces is total and transitive, as the
    contract of [Array.prototype.sort] asks of a comparator. *)
Hypothesis cmp_total : ∀ a b, (cmp a b <= 0)%Z ∨ (cmp b a <= 0)%Z.
Hypothesis cmp_trans :
  ∀ a b c, (cmp a b <= 0)%Z → (cmp b c <= 0)%Z → (cmp a c <= 0)%Z.

Lemma sort_insert_sorted (x : A) (l : list A) :
  StronglySorted (fun a b => (cmp a b <= 0)%Z) l →
  StronglySorted (fun a b => (cmp a b <= 0)%Z) (sort_insert cmp x l).
Proof.
  induction 1 as [|y l Hs IH Hall]; simpl.
  - repeat constructor.
  - destruct (Z.leb_spec (cmp x y) 0) as [Hle|Hgt].
    + constructor; [by constructor|]. constructor; [done|].
      eapply Forall_impl; [exact Hall|]. intros z Hz. by eapply cmp_trans.
    + constructor; [done|]. rewrite sort_insert_perm. constructor; [|done].
      destruct (cmp_total x y) as [H|H]; [lia | done].
Qed.

Lemma array_sort_sorted (l : list A) :
  StronglySorted (fun a b => (cmp a b <= 0)%Z) (array_sort cmp l).
Proof.
  induction l as [|x l IH]; simpl; [constructor | by apply sort_insert_sorted].
Qed.

End Sorting.

Lemma sorted_newest_first (l : list NostrEvent) :
  StronglySorted not_older (array_sort newest_first l).
Proof.
  assert (StronglySorted (fun a b => (newest_first a b <= 0)%Z)
                         (array_sort newest_first l)) as H
    by (apply array_sort_sorted; unfold newest_first; intros; lia).
  induction H as [|a l' Hs IH Hall]; constructor; [done|].
  eapply Forall_impl; [exact Hall|].
  unfold newest_first, not_older. intros; lia.
Qed.

(** [acc.find(e => e.id === event.id)] finds nothing exactly when no element
    of [acc] has the identifier. *)
Lemma find_id_none (ident : string) (acc : list NostrEvent) :
  List.find (fun e => String.eqb (id e) ident) acc = None
  ↔ ident ∉ map id acc.
Proof.
  induction acc as [|a acc IH]; simpl.
  - split; [intros _; apply not_elem_of_nil | done].
  - rewrite not_elem_of_cons. destruct (String.eqb_spec (id a) ident) as [->|Hne].
    + split; [done | intros [H _]; done].
    + rewrite IH. split; [intros H; split; congruence | intros [_ H]; done].
Qed.

(** The accumulator of [dedupe] keeps identifiers distinct, and holds an
    event exactly when it was there before or is the first of the remaining
    events with an identifier not seen before. *)
Lemma fold_push_unique (l acc : list NostrEvent) :
  NoDup (map id acc) →
  NoDup (map id (fold_left push_unique l acc))
  ∧ ∀ e, e ∈ fold_left push_unique l acc
         ↔ e ∈ acc
           ∨ ((id e ∉ map id acc)
              ∧ List.find (fun x => String.eqb (id x) (id e)) l = Some e).
Proof.
  revert acc. induction l as [|x l IH]; intros acc Hnd; simpl.
  - split; [done|]. intros e. split; [by left | intros [H | [_ H]]; done].
  - destruct (List.find (fun e => String.eqb (id e) (id x)) acc) as [a|] eqn:Hf;
      simpl.
    + destruct (IH acc Hnd) as [Hnd' Hin]. split; [done|]. intros e.
      rewrite Hin. apply find_some in Hf as [Ha Heq].
      apply String.eqb_eq in Heq.
      destruct (String.eqb_spec (id x) (id e)) as [Hxe|Hxe]; [|done].
      split; (intros [H | [Hno _]]; [by left|]); exfalso; apply Hno;
        rewrite <- Hxe, <- Heq; apply list_elem_of_fmap_2;
        by apply list_elem_of_In.
    + apply find_id_none in Hf.
      assert (NoDup (map id (acc ++ [x]))) as Hnd2.
      { rewrite map_app. apply NoDup_app. repeat split; [done | |].
        - intros i Hi Hx. apply list_elem_of_singleton in Hx. by subst.
        - apply NoDup_singleton. }
      destruct (IH _ Hnd2) as [Hnd' Hin]. split; [done|]. intros e.
      rewrite Hin, map_app, elem_of_app, not_elem_of_app. simpl.
      rewrite list_elem_of_singleton.
      assert (id e ∉ [id x] ↔ id x ≠ id e) as ->
        by (rewrite list_elem_of_singleton; split; congruence).
      destruct (String.eqb_spec (id x) (id e)) as [Hxe|Hxe].
      * split.
        -- intros [[H | ->] | [[_ H] _]]; [by left | by right | done].
        -- intros [H | [_ [= ->]]]; [by left; left | by left; right].
      * split.
        -- intros [[H | ->] | [[H _] H']]; [by left | done | by right].
        -- intros [H | [H H']]; [by left; left | by right].
Qed.

Lemma dedupe_spec (valid : list NostrEvent) :
  NoDup (map id (dedupe valid))
  ∧ ∀ e, e ∈ dedupe valid
         ↔ List.find (fun x => String.eqb (id x) (id e)) valid = Some e.
Proof.
  destruct (fold_push_unique valid [] (NoDup_nil_2 : NoDup (map id []))) as [Hnd Hin].
  split; [done|]. intros e. unfold dedupe. rewrite Hin. split.
  - intros [H | [_ H]]; [by apply elem_of_nil in H | done].
  - intros H. right. split; [apply not_elem_of_nil | done].
Qed.

(** ** The paginated query *)

Lemma getDiscoveryPool_run (w : World) :
  getDiscoveryPool w = (inr (pool_at w), world_with_pool w).
Proof.
  unfold world_with_pool, pool_at, getDiscoveryPool.
  unfold mbind, hook_bind, bind, read_shared.
  by destruct (sharedDiscoveryPool w).
Qed.

Lemma world_with_pool_calls (w : World) :
  calls (world_with_pool w)
  = calls w ++ match sharedDiscoveryPool w with
               | Some _ => []
               | None => [CallNewPool (next_ref w)]
               end.
Proof.
  unfold world_with_pool, getDiscoveryPool.
  unfold mbind, hook_bind, bind, read_shared.
  destruct (sharedDiscoveryPool w); simpl; [by rewrite app_nil_r | done].
Qed.

(** One run of [queryFn], step by step. *)
Lemma queryFn_run (env : Collaborators) (pubkey : option string)
      (pageParam : option Z) (signal : AbortSignal) (w : World) :
  useUserImagePosts_queryFn env pubkey pageParam signal w
  = if Js.truthy pubkey then
      let pk := default "" pubkey in
      (match pool_answer env pk pageParam signal w with
       | inl e => inl e
       | inr raw => inr (page_of (page_filter pk pageParam) raw)
       end,
       record (CallQuery (DiscoveryPool (pool_at w)) [page_filter pk pageParam]
                         (AnySignal [signal; TimeoutSignal 10000]))
              (world_with_pool w))
    else (inr {| events := []; nextCursor := None |}, w).
Proof.
  unfold useUserImagePosts_queryFn. destruct (Js.truthy pubkey); [|done].
  cbn [negb]. unfold mbind, hook_bind, bind.
  rewrite getDiscoveryPool_run. unfold try_rethrow, pool_query, pool_answer.
  by destruct (relay_query _ _ _ _ _).
Qed.

(** The events of a page are the deduplicated valid events, newest first. *)
Lemma page_of_events (filter : Filter) (raw : list NostrEvent) :
  let valid := List.filter validateImageEvent raw in
  NoDup (map id (events (page_of filter raw)))
  ∧ (∀ e, e ∈ events (page_of filter raw)
          ↔ List.find (fun x => String.eqb (id x) (id e)) valid = Some e)
  ∧ StronglySorted not_older (events (page_of filter raw))
  ∧ Forall (fun e => validateImageEvent e = true) (events (page_of filter raw)).
Proof.
  intros valid. cbn [page_of events]. fold valid.
  destruct (dedupe_spec valid) as [Hnd Hin].
  pose proof (array_sort_perm newest_first (dedupe valid)) as Hperm.
  repeat split.
  - by rewrite Hperm.
  - rewrite Hperm. apply Hin.
  - rewrite Hperm. apply Hin.
  - apply sorted_newest_first.
  - apply Forall_forall. intros e He. rewrite Hperm in He.
    apply Hin, find_some in He as [He _].
    by apply filter_In in He as [_ He].
Qed.

(** The cursor of a page: absent when the raw answer falls short of the
    limit or when no event of it is kept, else the oldest timestamp kept. *)
Lemma page_of_nextCursor (filter : Filter) (raw : list NostrEvent) :
  (nextCursor (page_of filter raw) = None
   ↔ (Z.of_nat (length raw) < limit filter)%Z ∨ events (page_of filter raw) = [])
  ∧ ((limit filter <= Z.of_nat (length raw))%Z →
     nextCursor (page_of filter raw)
     = created_at <$> last (events (page_of filter raw))).
Proof.
  cbn [page_of events nextCursor].
  destruct (Z.ltb_spec (Z.of_nat (length raw)) (limit filter)) as [Hlt|Hge].
  - split; [split; [by left | done] | lia].
  - split; [|done]. rewrite fmap_None, last_None. split; [by right|].
    intros [H | H]; [lia | done].
Qed.

(** C3: the events of every page the fetch returns have pairwise distinct
    identifiers, each being the first valid raw event with its identifier,
    are ordered by non-increasing creation time, and all pass
    [validateImageEvent]. *)
Theorem C3_page_unique_sorted_valid (env : Collaborators)
        (pubkey : option string) (pageParam : option Z) (signal : AbortSignal)
        (w w' : World) (page : Page) :
  useUserImagePosts_queryFn env pubkey pageParam signal w = (inr page, w') →
  NoDup (map id (events page))
  ∧ (∀ e, e ∈ events page
          ↔ List.find (fun x => String.eqb (id x) (id e))
                      (List.filter validateImageEvent
                                   (raw_events env pubkey pageParam signal w))
            = Some e)
  ∧ StronglySorted not_older (events page)
  ∧ Forall (fun e => validateImageEvent e = true) (events page).
Proof.
  rewrite queryFn_run. unfold raw_events.
  destruct (Js.truthy pubkey); cbn zeta.
  - destruct (pool_answer _ _ _ _ _) as [err|raw]; intros [= <- _].
    apply page_of_events.
  - intros [= <- _]. cbn [events List.filter List.find].
    repeat split; try constructor; try done. intros H. by apply elem_of_nil in H.
Qed.

(** The page computed from [Fixture.mixed]: the repeated identifier and the
    rejected event are gone, the rest is newest first. *)
Lemma C3_witness :
  let run := useUserImagePosts_queryFn (Fixture.collaborators Fixture.mixed)
               (Some "alice") None (CallerSignal 0) initial_world in
  run = (inr (page_of (page_filter "alice" None) Fixture.mixed), snd run)
  ∧ map id (events (page_of (page_filter "alice" None) Fixture.mixed))
    = ["a4"; "a5"; "a3"]
  ∧ StronglySorted not_older
      (events (page_of (page_filter "alice" None) Fixture.mixed)).
Proof.
  intros run. split; [reflexivity|]. split; [reflexivity|].
  apply (C3_page_unique_sorted_valid
           (Fixture.collaborators Fixture.mixed) (Some "alice") None
           (CallerSignal 0) initial_world (snd run)).
  reflexivity.
Defined.

(** C2, at a full page of rejected events: the relay answers with fifteen
    events, as many as the limit, none passes [validateImageEvent], and the
    fetch returns no cursor. *)
Theorem C2_full_page_of_rejected_events :
  length Fixture.fifteen_untagged = 15%nat
  ∧ NoDup (map id Fixture.fifteen_untagged)
  ∧ limit (page_filter "alice" None) = 15%Z
  ∧ fst (useUserImagePosts_queryFn
           (Fixture.collaborators Fixture.fifteen_untagged)
           (Some "alice") None (CallerSignal 0) initial_world)
    = inr {| events := []; nextCursor := None |}.
Proof.
  repeat split; try reflexivity.
  apply (bool_decide_unpack (NoDup (map id Fixture.fifteen_untagged))).
  by vm_compute.
Qed.

(** C10: with an undefined [pubkey] the fetch returns the empty page with no
    cursor and leaves the state as it was: nothing is sent to the pool, and
    the hook does not enable the query either. *)
Theorem C10_undefined_pubkey (env : Collaborators) (pageParam : option Z)
        (signal : AbortSignal) (w : World) :
  useUserImagePosts_queryFn env None pageParam signal w
  = (inr {| events := []; nextCursor := None |}, w)
  ∧ new_calls w (snd (useUserImagePosts_queryFn env None pageParam signal w)) = []
  ∧ enabled None = false.
Proof.
  rewrite queryFn_run. cbn. unfold new_calls. by rewrite drop_all.
Qed.

(** ** The shared discovery pool *)

Lemma getDiscoveryPool_cached (w : World) (pool : NPool) :
  sharedDiscoveryPool w = Some pool → getDiscoveryPool w = (inr pool, w).
Proof.
  intros H. unfold getDiscoveryPool, mbind, hook_bind, bind, read_shared.
  by rewrite H.
Qed.

(** Two successive calls return the same pool, whatever the state. *)
Lemma getDiscoveryPool_twice (w : World) :
  getDiscoveryPool (world_with_pool w) = (inr (pool_at w), world_with_pool w).
Proof.
  apply getDiscoveryPool_cached.
  unfold world_with_pool, pool_at, getDiscoveryPool.
  unfold mbind, hook_bind, bind, read_shared.
  by destruct (sharedDiscoveryPool w) eqn:E.
Qed.

(** A page fetch never resets the module variable. *)
Lemma queryFn_keeps_pool (env : Collaborators) (pubkey : option string)
      (pageParam : option Z) (signal : AbortSignal) (w : World) (pool : NPool) :
  sharedDiscoveryPool w = Some pool →
  sharedDiscoveryPool
    (snd (useUserImagePosts_queryFn env pubkey pageParam signal w)) = Some pool.
Proof.
  intros H. rewrite queryFn_run. destruct (Js.truthy pubkey); cbn; [|done].
  unfold world_with_pool. by rewrite (getDiscoveryPool_cached w pool H).
Qed.

(** C8: the first call of [getDiscoveryPool] constructs the pool, a fresh
    object, and stores it; every later call returns that same object and
    constructs nothing. *)
Theorem C8_getDiscoveryPool_shared (w : World) :
  sharedDiscoveryPool w = None →
  ∃ pool w1,
    getDiscoveryPool w = (inr pool, w1)
    ∧ pool_ref pool = next_ref w
    ∧ calls w1 = calls w ++ [CallNewPool (pool_ref pool)]
    ∧ sharedDiscoveryPool w1 = Some pool
    ∧ (∀ n, after_calls n w1 = w1
            ∧ getDiscoveryPool (after_calls n w1) = (inr pool, w1))
    ∧ (∀ w2, sharedDiscoveryPool w2 = Some pool →
             getDiscoveryPool w2 = (inr pool, w2)).
Proof.
  intros Hnull. exists (pool_at w), (world_with_pool w).
  split; [apply getDiscoveryPool_run|].
  split; [unfold pool_at; by rewrite Hnull|].
  split; [rewrite world_with_pool_calls, Hnull; unfold pool_at; by rewrite Hnull|].
  assert (sharedDiscoveryPool (world_with_pool w) = Some (pool_at w)) as Hs.
  { unfold world_with_pool, pool_at, getDiscoveryPool.
    unfold mbind, hook_bind, bind, read_shared. by rewrite Hnull. }
  split; [done|].
  assert (∀ n, after_calls n (world_with_pool w) = world_with_pool w) as Hn.
  { induction n as [|n IH]; [done|]. unfold after_calls in *. simpl.
    rewrite IH. by rewrite getDiscoveryPool_twice. }
  split; [|intros w2 H2; by apply getDiscoveryPool_cached].
  intros n. split; [done|]. rewrite Hn. apply getDiscoveryPool_twice.
Qed.

(** The first call in a fresh process. *)
Lemma C8_witness :
  sharedDiscoveryPool initial_world = None
  ∧ ∃ pool w1,
      getDiscoveryPool initial_world = (inr pool, w1)
      ∧ pool_ref pool = 0%nat
      ∧ calls w1 = [CallNewPool (pool_ref pool)]
      ∧ sharedDiscoveryPool w1 = Some pool
      ∧ (∀ n, after_calls n w1 = w1
              ∧ getDiscoveryPool (after_calls n w1) = (inr pool, w1))
      ∧ (∀ w2, sharedDiscoveryPool w2 = Some pool →
               getDiscoveryPool w2 = (inr pool, w2)).
Proof.
  split; [reflexivity|].
  exact (C8_getDiscoveryPool_shared initial_world eq_refl).
Defined.

(** ** The reaction mutations *)

Lemma new_calls_same (w : World) : new_calls w w = [].
Proof. unfold new_calls. apply drop_all. Qed.

Lemma new_calls_app (w w' : World) (added : list Call) :
  calls w' = calls w ++ added → new_calls w w' = added.
Proof. unfold new_calls. intros ->. apply drop_app_length. Qed.

(** C6: without a signer the add-reaction mutation throws
    [Error('User not logged in')] and calls no collaborator: nothing is
    signed, nothing is published. *)
Theorem C6_react_without_signer (env : Collaborators) (user : option User)
        (vars : ReactVars) (w : World) :
  signer_of user = None →
  useReactToPost_mutationFn env user vars w
  = (inl (Js.Error "User not logged in"), w)
  ∧ reactToPost env user vars w = (inl (Js.Error "User not logged in"), w)
  ∧ new_calls w (snd (reactToPost env user vars w)) = []
  ∧ no_sign_no_publish (new_calls w (snd (reactToPost env user vars w))).
Proof.
  intros Hs.
  assert (useReactToPost_mutationFn env user vars w
          = (inl (Js.Error "User not logged in"), w)) as E
    by (unfold useReactToPost_mutationFn; by rewrite Hs).
  assert (reactToPost env user vars w
          = (inl (Js.Error "User not logged in"), w)) as E'
    by (unfold reactToPost, mutate, mbind, hook_bind, bind; by rewrite E).
  rewrite E'. cbn [snd]. rewrite new_calls_same.
  split; [done|]. split; [done|]. split; [done | constructor].
Qed.

(** A viewer without signer reacting to a post. *)
Lemma C6_witness :
  signer_of (Some Fixture.anonymous) = None
  ∧ fst (reactToPost (Fixture.collaborators []) (Some Fixture.anonymous)
           {| rv_eventId := "post1"; rv_authorPubkey := "alice";
              rv_reaction := None; rv_kind := None |} initial_world)
    = inl (Js.Error "User not logged in").
Proof.
  split; [reflexivity|].
  destruct (C6_react_without_signer (Fixture.collaborators [])
              (Some Fixture.anonymous)
              {| rv_eventId := "post1"; rv_authorPubkey := "alice";
                 rv_reaction := None; rv_kind := None |}
              initial_world eq_refl) as (_ & E & _).
  exact (f_equal fst E).
Defined.

(** C5: with a signer, when none of the viewer's reactions the relay returns
    has the requested content, the remove-reaction mutation throws
    [Error('Reaction not found')]; its only call is the lookup query, so
    nothing is signed and nothing is published. *)
Theorem C5_remove_not_found (env : Collaborators) (u : User) (sgn : nat)
        (vars : RemoveVars) (w : World) (existing : list NostrEvent) :
  signer u = Some sgn →
  relay_query env (calls w) NostrPool
              [own_reactions_filter (user_pubkey u) (rm_eventId vars)]
              (TimeoutSignal 3000) = inr existing →
  Forall (fun r => Js.or_else (content r) "+" ≠ default "+" (rm_reaction vars))
         existing →
  let run := useRemoveReaction_mutationFn env (Some u) vars w in
  fst run = inl (Js.Error "Reaction not found")
  ∧ new_calls w (snd run)
    = [CallQuery NostrPool
                 [own_reactions_filter (user_pubkey u) (rm_eventId vars)]
                 (TimeoutSignal 3000)]
  ∧ no_sign_no_publish (new_calls w (snd run))
  ∧ removeReaction env (Some u) vars w = run.
Proof.
  intros Hs Hq Hnone run.
  assert (List.find (same_reaction (default "+" (rm_reaction vars))) existing
          = None) as Hfind.
  { destruct (List.find _ existing) as [r|] eqn:E; [|done].
    apply find_some in E as [Hin Hr]. rewrite List.Forall_forall in Hnone.
    apply Hnone in Hin. unfold same_reaction in Hr.
    by apply String.eqb_eq in Hr. }
  assert (run = (inl (Js.Error "Reaction not found"),
                 record (CallQuery NostrPool
                           [own_reactions_filter (user_pubkey u) (rm_eventId vars)]
                           (TimeoutSignal 3000)) w)) as E.
  { unfold run, useRemoveReaction_mutationFn. rewrite Hs.
    unfold mbind, hook_bind, bind, pool_query. rewrite Hq. cbn zeta.
    by rewrite Hfind. }
  split; [by rewrite E|]. split; [rewrite E; by apply new_calls_app|].
  split.
  - rewrite E. erewrite new_calls_app by reflexivity. by repeat constructor.
  - unfold removeReaction, mutate, mbind, hook_bind, bind. fold run.
    by rewrite E.
Qed.

(** The viewer liked the post and asks to remove a heart. *)
Lemma C5_witness :
  let env := Fixture.collaborators [Fixture.reaction "r1" "viewer" "+"] in
  let vars := {| rm_eventId := "post1"; rm_reaction := Some "❤" |} in
  signer Fixture.viewer = Some 0%nat
  ∧ fst (useRemoveReaction_mutationFn env (Some Fixture.viewer) vars
           initial_world)
    = inl (Js.Error "Reaction not found").
Proof.
  intros env vars. split; [reflexivity|].
  apply (C5_remove_not_found env Fixture.viewer 0%nat vars initial_world
           [Fixture.reaction "r1" "viewer" "+"]).
  - reflexivity.
  - reflexivity.
  - repeat constructor. vm_compute. discriminate.
Defined.

(** ** Cancellation of the relay queries *)

Lemma any_caller_timeout (caller : AbortSignal) (ms : Z) :
  caller_or_timeout caller ms (AnySignal [caller; TimeoutSignal ms]).
Proof. intros now. cbn. by rewrite orb_false_r. Qed.

(** A bare timeout ignores every caller token. *)
Lemma timeout_not_combined (ms : Z) : ¬ combined_signal (TimeoutSignal ms).
Proof.
  intros (token & ms' & H).
  specialize (H {| cancelled := fun _ => true; elapsed := ms - 1 |}).
  cbn in H. destruct (Z.leb_spec ms (ms - 1)); [lia | discriminate].
Qed.

Ltac log_tail :=
  cbn [snd];
  erewrite new_calls_app
    by (cbn [calls record]; rewrite <- ?app_assoc; reflexivity).

Lemma queryFn_signals (env : Collaborators) (pubkey : option string)
      (pageParam : option Z) (signal : AbortSignal) (w : World) :
  query_signals
    (new_calls w (snd (useUserImagePosts_queryFn env pubkey pageParam signal w)))
  = if Js.truthy pubkey then [AnySignal [signal; TimeoutSignal 10000]] else [].
Proof.
  rewrite queryFn_run. destruct (Js.truthy pubkey); cbn zeta.
  - cbn [snd].
    erewrite new_calls_app
      by (cbn [calls record]; rewrite world_with_pool_calls, <- app_assoc;
          reflexivity).
    by destruct (sharedDiscoveryPool w).
  - cbn [snd]. by rewrite new_calls_same.
Qed.

Lemma useReactions_signals (env : Collaborators) (user : option User)
      (eventId : string) (c_signal : AbortSignal) (w : World) :
  query_signals
    (new_calls w (snd (useReactions_queryFn env user eventId c_signal w)))
  = [AnySignal [c_signal; TimeoutSignal 3000]].
Proof.
  unfold useReactions_queryFn, mbind, hook_bind, bind, pool_query.
  destruct (relay_query _ _ _ _ _) as [err|raw]; [by log_tail|].
  destruct (aggregate _ _); by log_tail.
Qed.

Lemma useRemoveReaction_signals (env : Collaborators) (user : option User)
      (vars : RemoveVars) (w : World) :
  query_signals
    (new_calls w (snd (useRemoveReaction_mutationFn env user vars w)))
  = if Js.defined (signer_of user) then [TimeoutSignal 3000] else [].
Proof.
  unfold useRemoveReaction_mutationFn.
  destruct user as [u|]; [|cbn; by rewrite new_calls_same].
  cbn [signer_of]. destruct (signer u) as [sgn|];
    [|cbn; by rewrite new_calls_same].
  unfold mbind, hook_bind, bind, pool_query, signEvent, pool_event, now_seconds.
  unfold mret, hook_ret, ret, throw.
  destruct (relay_query _ _ _ _ _) as [err|existing]; [by log_tail|].
  destruct (List.find _ existing) as [r|]; [|by log_tail].
  cbn [calls record].
  destruct (signer_signEvent _ _ _ _) as [err|deletion]; [by log_tail|].
  cbn [calls record].
  destruct (relay_event _ _ _ _); by log_tail.
Qed.

(** The lookup of the remove-reaction mutation is sent with a bare timeout,
    which is no combination of a caller token with a timeout. *)
Lemma C4_remove_lookup_has_no_caller_token :
  ¬ Forall combined_signal
      (query_signals
         (new_calls initial_world
            (snd (useRemoveReaction_mutationFn
                    (Fixture.collaborators [Fixture.reaction "r1" "viewer" "+"])
                    (Some Fixture.viewer)
                    {| rm_eventId := "post1"; rm_reaction := None |}
                    initial_world)))).
Proof.
  rewrite useRemoveReaction_signals. cbn. intros H.
  inversion H as [|sg rest Hsg _]; subst.
  by apply timeout_not_combined in Hsg.
Qed.

(** C4, amended: the page fetch sends its one query with a signal that aborts
    when the caller's signal does or after 10000 ms, and the reaction
    aggregation with one that aborts when the caller's signal does or after
    3000 ms; the lookup of the remove-reaction mutation is sent with a
    timeout of 3000 ms alone, which no caller token can abort. *)
Theorem C4_query_signals (env : Collaborators) (w : World) :
  (∀ pubkey pageParam signal,
      query_signals
        (new_calls w
           (snd (useUserImagePosts_queryFn env pubkey pageParam signal w)))
      = (if Js.truthy pubkey then [AnySignal [signal; TimeoutSignal 10000]]
         else [])
      ∧ caller_or_timeout signal 10000 (AnySignal [signal; TimeoutSignal 10000]))
  ∧ (∀ user eventId c_signal,
        query_signals
          (new_calls w (snd (useReactions_queryFn env user eventId c_signal w)))
        = [AnySignal [c_signal; TimeoutSignal 3000]]
        ∧ caller_or_timeout c_signal 3000
            (AnySignal [c_signal; TimeoutSignal 3000]))
  ∧ (∀ user vars,
        query_signals
          (new_calls w (snd (useRemoveReaction_mutationFn env user vars w)))
        = (if Js.defined (signer_of user) then [TimeoutSignal 3000] else [])
        ∧ (∀ now, aborted now (TimeoutSignal 3000) = (3000 <=? elapsed now)%Z)
        ∧ ¬ combined_signal (TimeoutSignal 3000)).
Proof.
  repeat split.
  - apply queryFn_signals.
  - apply any_caller_timeout.
  - apply useReactions_signals.
  - apply any_caller_timeout.
  - apply useRemoveReaction_signals.
  - apply timeout_not_combined.
Qed.

(** ** Reaction aggregation *)

(** One step of the fold: the entry under the reaction's content, created
    when absent, counts the reaction; no other entry changes. *)
Lemma count_reaction_insert (user : option User)
      (acc : gmap string ReactionEntry) (r : NostrEvent) :
  let key := Js.or_else (content r) "+" in
  Js.inherited key = false →
  count_reaction user acc r
  = inr (<[key := counted user r (default fresh_entry (acc !! key))]> acc).
Proof.
  intros key Hkey. unfold count_reaction. fold key. rewrite Hkey. f_equal.
  apply map_eq. intros k. rewrite lookup_insert.
  destruct (acc !! key) as [old|] eqn:Hold;
    destruct (is_viewer user r) eqn:Hv;
    rewrite ?lookup_alter, ?lookup_insert;
    repeat case_decide; subst; try congruence; rewrite ?Hold; cbn;
    unfold counted, mark_reacted, push_user, increment; cbn;
    by rewrite Hv, ?orb_true_r, ?orb_false_r.
Qed.

Lemma is_viewer_spec (user : option User) (r : NostrEvent) :
  is_viewer user r = true ↔ ∃ u, user = Some u ∧ pubkey r = user_pubkey u.
Proof.
  destruct user as [u|]; simpl.
  - rewrite String.eqb_eq. split; [by exists u | by intros (? & [= <-] & ?)].
  - split; [done | by intros (? & ? & _)].
Qed.

Lemma is_viewer_other (u : User) (r : NostrEvent) :
  pubkey r ≠ user_pubkey u → is_viewer (Some u) r = false.
Proof. intros H. simpl. by apply String.eqb_neq. Qed.

(** C7: three valid reactions [+], [+], [🔥] from distinct authors aggregate
    to exactly two entries, [+] with count 2 and its two authors and [🔥]
    with count 1 and its author; an entry has [hasReacted] set exactly when
    the viewer is one of its authors, so a viewer who is one of the three
    authors is marked in the entry of the own content and not in the other. *)
Theorem C7_three_reactions (env : Collaborators) (viewer : option User)
        (eventId : string) (c_signal : AbortSignal) (w : World)
        (e1 e2 e3 : NostrEvent) :
  validateReactionEvent e1 = true →
  validateReactionEvent e2 = true →
  validateReactionEvent e3 = true →
  content e1 = "+" → content e2 = "+" → content e3 = "🔥" →
  NoDup [pubkey e1; pubkey e2; pubkey e3] →
  relay_query env (calls w) NostrPool [reactions_filter eventId]
              (AnySignal [c_signal; TimeoutSignal 3000]) = inr [e1; e2; e3] →
  ∃ agg,
    fst (useReactions_queryFn env viewer eventId c_signal w) = inr agg
    ∧ agg = {[ "+" := {| count := 2; users := [pubkey e1; pubkey e2];
                         hasReacted := is_viewer viewer e1 || is_viewer viewer e2 |};
               "🔥" := {| count := 1; users := [pubkey e3];
                          hasReacted := is_viewer viewer e3 |} ]}
    ∧ (∀ u, viewer = Some u →
            user_pubkey u = pubkey e1 ∨ user_pubkey u = pubkey e2 →
            hasReacted <$> agg !! "+" = Some true
            ∧ hasReacted <$> agg !! "🔥" = Some false)
    ∧ (∀ u, viewer = Some u →
            user_pubkey u = pubkey e3 →
            hasReacted <$> agg !! "🔥" = Some true
            ∧ hasReacted <$> agg !! "+" = Some false).
Proof.
  intros Hv1 Hv2 Hv3 Hc1 Hc2 Hc3 Hnd Hq.
  pose proof (NoDup_cons_1_1 _ _ Hnd) as Hn1.
  pose proof (NoDup_cons_1_1 _ _ (NoDup_cons_1_2 _ _ Hnd)) as Hn2.
  apply not_elem_of_cons in Hn1 as [H12 Hn1].
  apply not_elem_of_cons in Hn1 as [H13 _].
  apply not_elem_of_cons in Hn2 as [H23 _].
  eexists. split.
  - unfold useReactions_queryFn, mbind, hook_bind, bind, pool_query.
    rewrite Hq. cbn [List.filter]. rewrite Hv1, Hv2, Hv3.
    unfold aggregate. cbn [fold_left].
    rewrite (count_reaction_insert viewer ∅ e1) by (by rewrite Hc1).
    rewrite Hc1. change (Js.or_else "+" "+") with "+".
    rewrite lookup_empty. cbn [default].
    rewrite (count_reaction_insert viewer _ e2) by (by rewrite Hc2).
    rewrite Hc2. change (Js.or_else "+" "+") with "+".
    rewrite lookup_insert_eq, insert_insert_eq. cbn [default].
    rewrite (count_reaction_insert viewer _ e3) by (by rewrite Hc3).
    rewrite Hc3. change (Js.or_else "🔥" "+") with "🔥".
    rewrite lookup_insert_ne by done. rewrite lookup_empty. cbn [default].
    reflexivity.
  - split.
    + rewrite insert_insert_ne by done. reflexivity.
    + split; intros u -> Hu.
      * rewrite lookup_insert_ne by done. rewrite !lookup_insert_eq.
        cbn -[is_viewer].
        rewrite (is_viewer_other u e3) by (destruct Hu; congruence).
        split; [|done]. f_equal. unfold is_viewer.
        destruct Hu as [Hu | Hu]; rewrite Hu, String.eqb_refl;
          by rewrite ?orb_true_r.
      * rewrite lookup_insert_eq. rewrite lookup_insert_ne by done.
        rewrite lookup_insert_eq. cbn -[is_viewer].
        rewrite (is_viewer_other u e1), (is_viewer_other u e2) by congruence.
        unfold is_viewer. by rewrite Hu, String.eqb_refl.
Qed.

(** Bob and Carol liked the post, the viewer sent a flame. *)
Lemma C7_witness :
  let run := useReactions_queryFn (Fixture.collaborators Fixture.three_reactions)
               (Some Fixture.viewer) "post1" (CallerSignal 0) initial_world in
  Forall (fun e => validateReactionEvent e = true) Fixture.three_reactions
  ∧ ∃ agg,
      fst run = inr agg
      ∧ agg = {[ "+" := {| count := 2; users := ["bob"; "carol"];
                           hasReacted := false |};
                 "🔥" := {| count := 1; users := ["viewer"];
                            hasReacted := true |} ]}.
Proof.
  intros run. split; [by repeat constructor|].
  destruct (C7_three_reactions
              (Fixture.collaborators Fixture.three_reactions)
              (Some Fixture.viewer) "post1" (CallerSignal 0) initial_world
              (Fixture.reaction "r1" "bob" "+")
              (Fixture.reaction "r2" "carol" "+")
              (Fixture.reaction "r3" "viewer" "🔥")
              eq_refl eq_refl eq_refl eq_refl eq_refl eq_refl)
    as (agg & Hrun & Hagg & _).
  - apply (bool_decide_unpack (NoDup ["bob"; "carol"; "viewer"])).
    vm_compute. exact I.
  - reflexivity.
  - exists agg. split; [exact Hrun | exact Hagg].
Defined.

(** ** Empty content is the default reaction *)

Lemma same_reaction_empty (r : NostrEvent) :
  content r = "" → same_reaction "+" r = true.
Proof. intros H. unfold same_reaction. by rewrite H. Qed.

Lemma count_reaction_empty (user : option User)
      (acc : gmap string ReactionEntry) (r : NostrEvent) :
  content r = "" →
  count_reaction user acc r = count_reaction user acc (with_content "+" r).
Proof. intros H. unfold count_reaction. cbn [content pubkey with_content].
       by rewrite H. Qed.

Lemma aggregate_step (user : option User) (l : list NostrEvent)
      (r r' : NostrEvent) (after : list NostrEvent) :
  (∀ acc, count_reaction user acc r = count_reaction user acc r') →
  aggregate user (l ++ r :: after) = aggregate user (l ++ r' :: after).
Proof.
  intros H. unfold aggregate. rewrite !fold_left_app. cbn [fold_left].
  destruct (fold_left _ l (inr ∅)) as [err|acc]; [done | by rewrite H].
Qed.

(** C9: a reaction with empty content counts as [+]. The aggregation counts
    it into the [+] entry, exactly as it would the same reaction with
    content [+]; and the lookup of the remove-reaction mutation, asked for
    [+] (given or by default), selects it: the deletion that is signed
    refers to its identifier. *)
Theorem C9_empty_content_is_plus :
  (∀ user acc r,
      content r = "" →
      count_reaction user acc r
      = inr (<["+" := counted user r (default fresh_entry (acc !! "+"))]> acc)
      ∧ count_reaction user acc r = count_reaction user acc (with_content "+" r))
  ∧ (∀ user before r after,
        content r = "" →
        aggregate user (before ++ r :: after)
        = aggregate user (before ++ with_content "+" r :: after))
  ∧ (∀ env u sgn vars w before r after,
        signer u = Some sgn →
        default "+" (rm_reaction vars) = "+" →
        content r = "" →
        Forall (fun x => same_reaction "+" x = false) before →
        relay_query env (calls w) NostrPool
                    [own_reactions_filter (user_pubkey u) (rm_eventId vars)]
                    (TimeoutSignal 3000) = inr (before ++ r :: after) →
        ∃ created rest,
          new_calls w (snd (useRemoveReaction_mutationFn env (Some u) vars w))
          = CallQuery NostrPool
                      [own_reactions_filter (user_pubkey u) (rm_eventId vars)]
                      (TimeoutSignal 3000)
            :: CallSignEvent sgn
                 {| t_kind := 5; t_content := "Removing reaction";
                    t_tags := [ ["e"; id r] ]; t_created_at := created |}
            :: rest).
Proof.
  split; [|split].
  - intros user acc r Hc. split; [|by apply count_reaction_empty].
    rewrite count_reaction_insert by (by rewrite Hc). by rewrite Hc.
  - intros user before r after Hc. apply aggregate_step.
    intros acc. by apply count_reaction_empty.
  - intros env u sgn vars w before r after Hs Hdef Hc Hbefore Hq.
    assert (List.find (same_reaction "+") (before ++ r :: after) = Some r)
      as Hfind.
    { clear Hq. induction Hbefore as [|x l Hx _ IH]; simpl.
      - by rewrite (same_reaction_empty r Hc).
      - by rewrite Hx. }
    unfold useRemoveReaction_mutationFn. rewrite Hs, Hdef.
    unfold mbind, hook_bind, bind, pool_query, signEvent, pool_event, now_seconds.
    unfold mret, hook_ret, ret, throw.
    rewrite Hq, Hfind. cbn [calls record].
    destruct (signer_signEvent _ _ _ _) as [err|deletion];
      [eexists _, []; by log_tail|].
    cbn [calls record].
    destruct (relay_event _ _ _ _); eexists _, [_]; by log_tail.
Qed.

(** The viewer's reaction with empty content, counted and then removed
    as a like. *)
Lemma C9_witness :
  content Fixture.silent_like = ""
  ∧ (∃ agg,
        aggregate (Some Fixture.viewer) [Fixture.silent_like] = inr agg
        ∧ agg !! "+" = Some {| count := 1; users := ["viewer"];
                               hasReacted := true |})
  ∧ ∃ created rest,
      new_calls initial_world
        (snd (useRemoveReaction_mutationFn
                (Fixture.collaborators [Fixture.silent_like])
                (Some Fixture.viewer)
                {| rm_eventId := "post1"; rm_reaction := None |}
                initial_world))
      = CallQuery NostrPool [own_reactions_filter "viewer" "post1"]
                  (TimeoutSignal 3000)
        :: CallSignEvent 0
             {| t_kind := 5; t_content := "Removing reaction";
                t_tags := [ ["e"; "r4"] ]; t_created_at := created |}
        :: rest.
Proof.
  destruct C9_empty_content_is_plus as (Hstep & _ & Hremove).
  split; [reflexivity|]. split.
  - eexists. split.
    + exact (proj1 (Hstep (Some Fixture.viewer) ∅ Fixture.silent_like eq_refl)).
    + by rewrite lookup_insert_eq.
  - apply (Hremove (Fixture.collaborators [Fixture.silent_like])
                   Fixture.viewer 0%nat
                   {| rm_eventId := "post1"; rm_reaction := None |}
                   initial_world [] Fixture.silent_like []);
      try reflexivity. constructor.
Defined.

(** * Further properties *)

(** ** The reaction validator *)

(** X1: [validateReactionEvent] accepts an event exactly when its kind is 7
    and both its first [e] tag and its first [p] tag carry a non-empty value;
    later tags of the same name are not looked at. *)
Theorem X1_validateReactionEvent (e : NostrEvent) :
  validateReactionEvent e = true
  ↔ kind e = 7%Z
    ∧ (∃ tag v, first_tag "e" (tags e) tag ∧ tag_value tag = Some v ∧ v ≠ "")
    ∧ (∃ tag v, first_tag "p" (tags e) tag ∧ tag_value tag = Some v ∧ v ≠ "").
Proof.
  unfold validateReactionEvent.
  destruct (Z.eqb_spec (kind e) 7) as [Hk|Hk]; cbn [negb];
    [| split; [done | intros [? _]; done]].
  assert (∀ name, (∃ tag v, first_tag name (tags e) tag
                            ∧ tag_value tag = Some v ∧ v ≠ "")
                  ↔ ∃ tag, find_tag name (tags e) = Some tag
                           ∧ Js.truthy (tag_value tag) = true) as Hfirst.
  { intros name. split.
    - intros (tag & v & Hf & Hv & Hne). exists tag.
      split; [by apply find_tag_first|]. apply truthy_spec. eauto.
    - intros (tag & Hf & Ht). apply truthy_spec in Ht as (v & Hv & Hne).
      exists tag, v. split; [by apply find_tag_first | done]. }
  rewrite !Hfirst.
  destruct (find_tag "e" (tags e)) as [eTag|];
    [| split; [done | intros (_ & (? & ? & _) & _); done]].
  destruct (Js.truthy (tag_value eTag)) eqn:He; cbn [negb];
    [| split; [done | intros (_ & (? & [= <-] & ?) & _); congruence]].
  destruct (find_tag "p" (tags e)) as [pTag|];
    [| split; [done | intros (_ & _ & (? & ? & _)); done]].
  destruct (Js.truthy (tag_value pTag)) eqn:Hp; cbn [negb].
  - split; [|done]. intros _. split; [done|]. split; eauto.
  - split; [done|]. intros (_ & _ & (? & [= <-] & ?)). congruence.
Qed.

(** A reaction whose first [e] tag is empty is rejected even when a later
    [e] tag names the target. *)
Example first_e_tag_decides :
  validateReactionEvent
    {| id := "r"; pubkey := "bob"; created_at := 1; kind := 7;
       tags := [ ["e"]; ["e"; "post1"]; ["p"; "alice"] ];
       content := "+"; sig := "" |} = false.
Proof. reflexivity. Qed.

(** ** The page fetch *)

Lemma enabled_spec (pubkey : option string) :
  enabled pubkey = true ↔ ∃ pk, pubkey = Some pk ∧ pk ≠ "".
Proof. apply truthy_spec. Qed.

(** X2: a fetch sends a query exactly when the hook enables the query, that
    is when the pubkey is a non-empty string; for an undefined or an empty
    pubkey it resolves to the empty page and leaves the state untouched. *)
Theorem X2_fetch_only_when_enabled (env : Collaborators)
        (pubkey : option string) (pageParam : option Z) (signal : AbortSignal)
        (w : World) :
  let run := useUserImagePosts_queryFn env pubkey pageParam signal w in
  (query_signals (new_calls w (snd run)) ≠ [] ↔ enabled pubkey = true)
  ∧ (enabled pubkey = true ↔ ∃ pk, pubkey = Some pk ∧ pk ≠ "")
  ∧ (enabled pubkey = false →
     run = (inr {| events := []; nextCursor := None |}, w)).
Proof.
  intros run. split; [|split; [apply enabled_spec|]].
  - unfold run. rewrite queryFn_signals. unfold enabled.
    by destruct (Js.truthy pubkey).
  - unfold run, enabled. intros H. by rewrite queryFn_run, H.
Qed.

(** An empty pubkey behaves like an undefined one. *)
Lemma X2_witness :
  enabled (Some "") = false
  ∧ useUserImagePosts_queryFn (Fixture.collaborators Fixture.mixed) (Some "")
      None (CallerSignal 0) initial_world
    = (inr {| events := []; nextCursor := None |}, initial_world).
Proof.
  split; [reflexivity|].
  exact (proj2 (proj2 (X2_fetch_only_when_enabled
                         (Fixture.collaborators Fixture.mixed) (Some "") None
                         (CallerSignal 0) initial_world)) eq_refl).
Defined.

Lemma queryFn_new_calls (env : Collaborators) (pk : string)
      (pageParam : option Z) (signal : AbortSignal) (w : World) :
  pk ≠ "" →
  new_calls w (snd (useUserImagePosts_queryFn env (Some pk) pageParam signal w))
  = match sharedDiscoveryPool w with
    | Some _ => []
    | None => [CallNewPool (next_ref w)]
    end
    ++ [CallQuery (DiscoveryPool (pool_at w)) [page_filter pk pageParam]
                  (AnySignal [signal; TimeoutSignal 10000])].
Proof.
  intros Hpk. rewrite queryFn_run.
  assert (Js.truthy (Some pk) = true) as -> by (apply truthy_spec; eauto).
  cbn [snd default]. apply new_calls_app. cbn [calls record].
  by rewrite world_with_pool_calls, <- app_assoc.
Qed.

(** X3: a fetch for a non-empty pubkey sends exactly one query: one filter
    for kind 20 of that one author with limit 15 and no tag constraint. The
    filter bounds the timestamps by the page parameter, except that a page
    parameter of 0 is dropped like an absent one. The fetch signs nothing,
    publishes nothing and invalidates nothing. *)
Theorem X3_fetch_query (env : Collaborators) (pk : string)
        (pageParam : option Z) (signal : AbortSignal) (w : World) :
  pk ≠ "" →
  let log := new_calls w (snd (useUserImagePosts_queryFn env (Some pk)
                                 pageParam signal w)) in
  (∃ f, query_filters log = [[f]]
        ∧ kinds f = [20%Z] ∧ authors f = Some [pk] ∧ tag_e f = None
        ∧ limit f = 15%Z
        ∧ until f = match pageParam with
                    | Some 0%Z => None
                    | other => other
                    end)
  ∧ query_targets log = [DiscoveryPool (pool_at w)]
  ∧ no_sign_no_publish log
  ∧ Forall (fun c => is_invalidate c = false) log.
Proof.
  intros Hpk log. unfold log. rewrite (queryFn_new_calls env pk _ _ w Hpk).
  split.
  - exists (page_filter pk pageParam).
    split; [by destruct (sharedDiscoveryPool w)|].
    repeat split. cbn. by destruct pageParam as [[| |]|].
  - split; [by destruct (sharedDiscoveryPool w)|].
    split; destruct (sharedDiscoveryPool w); by repeat constructor.
Qed.

Lemma X3_witness :
  "alice" ≠ ""
  ∧ query_targets
      (new_calls initial_world
         (snd (useUserImagePosts_queryFn (Fixture.collaborators Fixture.mixed)
                 (Some "alice") (Some 0%Z) (CallerSignal 0) initial_world)))
    = [DiscoveryPool (pool_at initial_world)].
Proof.
  split; [discriminate|].
  apply (X3_fetch_query (Fixture.collaborators Fixture.mixed) "alice"
                        (Some 0%Z) (CallerSignal 0) initial_world).
  discriminate.
Defined.

(** X4: when the pool rejects the query, the fetch rejects with the same
    error and produces no page. *)
Theorem X4_fetch_error_propagates (env : Collaborators) (pk : string)
        (pageParam : option Z) (signal : AbortSignal) (w : World)
        (e : Js.error) :
  pk ≠ "" →
  pool_answer env pk pageParam signal w = inl e →
  fst (useUserImagePosts_queryFn env (Some pk) pageParam signal w) = inl e.
Proof.
  intros Hpk Hq. rewrite queryFn_run.
  assert (Js.truthy (Some pk) = true) as -> by (apply truthy_spec; eauto).
  cbv zeta. change (default "" (Some pk)) with pk. cbn [fst]. by rewrite Hq.
Qed.

Lemma X4_witness :
  "alice" ≠ ""
  ∧ fst (useUserImagePosts_queryFn Sample.offline (Some "alice") None
           (CallerSignal 0) initial_world) = inl (Js.Rejected "offline").
Proof.
  split; [discriminate|].
  apply X4_fetch_error_propagates; [discriminate | reflexivity].
Defined.

(** The page of a fetch is computed from its raw events; with no query made
    it is the page of no events. *)
Lemma queryFn_page (env : Collaborators) (pubkey : option string)
      (pageParam : option Z) (signal : AbortSignal) (w w' : World)
      (page : Page) :
  useUserImagePosts_queryFn env pubkey pageParam signal w = (inr page, w') →
  page = page_of (page_filter (default "" pubkey) pageParam)
                 (raw_events env pubkey pageParam signal w).
Proof.
  rewrite queryFn_run. unfold raw_events.
  destruct (Js.truthy pubkey); cbv zeta.
  - by destruct (pool_answer _ _ _ _ _); intros [= <- _].
  - by intros [= <- _].
Qed.

Lemma dedupe_sublist (l acc : list NostrEvent) :
  ∃ kept, fold_left push_unique l acc = acc ++ kept ∧ sublist kept l.
Proof.
  revert acc. induction l as [|x l IH]; intros acc; cbn [fold_left].
  - exists []. by rewrite app_nil_r.
  - destruct (List.find (fun e => String.eqb (id e) (id x)) acc) eqn:Hf.
    + assert (push_unique acc x = acc) as -> by (cbn; by rewrite Hf).
      destruct (IH acc) as (kept & -> & Hs).
      exists kept. split; [done | by apply sublist_cons].
    + assert (push_unique acc x = acc ++ [x]) as -> by (cbn; by rewrite Hf).
      destruct (IH (acc ++ [x])) as (kept & -> & Hs).
      exists (x :: kept). rewrite <- app_assoc. split; [done|].
      by apply sublist_skip.
Qed.

(** X5: no valid event is lost and none is invented: every raw event that
    passes the validator has an event with its identifier in the page, every
    event of the page is one of the raw events, and the page is no longer
    than the raw answer. *)
Theorem X5_page_covers_valid_events (env : Collaborators)
        (pubkey : option string) (pageParam : option Z) (signal : AbortSignal)
        (w w' : World) (page : Page) :
  useUserImagePosts_queryFn env pubkey pageParam signal w = (inr page, w') →
  let raw := raw_events env pubkey pageParam signal w in
  (∀ e, e ∈ raw → validateImageEvent e = true →
        ∃ e', e' ∈ events page ∧ id e' = id e)
  ∧ (∀ e, e ∈ events page → e ∈ raw)
  ∧ (length (events page) ≤ length raw)%nat.
Proof.
  intros Hrun raw. apply queryFn_page in Hrun. fold raw in Hrun. subst page.
  destruct (page_of_events (page_filter (default "" pubkey) pageParam) raw)
    as (Hnd & Hin & _ & _). cbv zeta in Hin.
  assert (∀ e, e ∈ events (page_of (page_filter (default "" pubkey) pageParam) raw)
               → e ∈ raw) as Hsub.
  { intros e He. apply Hin, find_some in He as [He _].
    apply filter_In in He as [He _]. by apply list_elem_of_In. }
  split; [|split; [done|]].
  - intros e He Hv.
    destruct (List.find (fun x => String.eqb (id x) (id e))
                        (List.filter validateImageEvent raw)) as [e'|] eqn:Hf.
    + pose proof Hf as Hf'. apply find_some in Hf' as [_ Hid].
      apply String.eqb_eq in Hid. exists e'. split; [|done].
      apply Hin. by rewrite Hid.
    + exfalso. eapply find_none in Hf.
      * by rewrite String.eqb_refl in Hf.
      * apply filter_In. split; [by apply list_elem_of_In | done].
  - apply submseteq_length, NoDup_submseteq; [|done].
    by eapply NoDup_fmap_1.
Qed.

Lemma X5_witness :
  let run := useUserImagePosts_queryFn (Fixture.collaborators Fixture.mixed)
               (Some "alice") None (CallerSignal 0) initial_world in
  run = (inr (page_of (page_filter "alice" None) Fixture.mixed), snd run)
  ∧ (length (events (page_of (page_filter "alice" None) Fixture.mixed))
     ≤ length Fixture.mixed)%nat.
Proof.
  intros run. split; [reflexivity|].
  apply (X5_page_covers_valid_events
           (Fixture.collaborators Fixture.mixed) (Some "alice") None
           (CallerSignal 0) initial_world (snd run)).
  reflexivity.
Defined.

Lemma sort_insert_stable (t : Z) (x : NostrEvent) (l : list NostrEvent) :
  List.filter (fun e => (created_at e =? t)%Z) (sort_insert newest_first x l)
  = List.filter (fun e => (created_at e =? t)%Z) (x :: l).
Proof.
  induction l as [|y l IH]; [done|]. cbn [sort_insert].
  unfold newest_first at 1.
  destruct (Z.leb_spec (created_at y - created_at x) 0) as [Hle|Hgt]; [done|].
  cbn [List.filter] in *. rewrite IH.
  destruct (Z.eqb_spec (created_at y) t), (Z.eqb_spec (created_at x) t);
    try done. lia.
Qed.

Lemma array_sort_stable (t : Z) (l : list NostrEvent) :
  List.filter (fun e => (created_at e =? t)%Z) (array_sort newest_first l)
  = List.filter (fun e => (created_at e =? t)%Z) l.
Proof.
  induction l as [|x l IH]; [done|]. cbn [array_sort].
  rewrite sort_insert_stable. cbn [List.filter]. by rewrite IH.
Qed.

(** X6: ties keep the order of arrival. The events of a page that share a
    timestamp stand in the order in which the deduplication kept them, and
    that order is the order of the raw answer. *)
Theorem X6_page_order_is_stable (filter : Filter) (raw : list NostrEvent)
        (t : Z) :
  List.filter (fun e => (created_at e =? t)%Z) (events (page_of filter raw))
  = List.filter (fun e => (created_at e =? t)%Z)
                (dedupe (List.filter validateImageEvent raw))
  ∧ sublist (dedupe (List.filter validateImageEvent raw)) raw.
Proof.
  split; [apply array_sort_stable|].
  destruct (dedupe_sublist (List.filter validateImageEvent raw) [])
    as (kept & Hk & Hs).
  unfold dedupe. rewrite Hk. cbn [app]. etrans; [exact Hs|].
  clear. induction raw as [|x raw IH]; [done|]. cbn [List.filter].
  destruct (validateImageEvent x); [by apply sublist_skip | by apply sublist_cons].
Qed.

Lemma filter_all {A : Type} (f : A → bool) (l : list A) :
  Forall (fun x => f x = true) l → List.filter f l = l.
Proof.
  induction 1 as [|x l Hx _ IH]; [done|]. cbn. by rewrite Hx, IH.
Qed.

Lemma dedupe_distinct (l acc : list NostrEvent) :
  NoDup (map id (acc ++ l)) → fold_left push_unique l acc = acc ++ l.
Proof.
  revert acc. induction l as [|x l IH]; intros acc Hnd; cbn [fold_left].
  - by rewrite app_nil_r.
  - assert (List.find (fun e => String.eqb (id e) (id x)) acc = None) as Hf.
    { apply find_id_none. rewrite map_app in Hnd.
      apply NoDup_app in Hnd as (_ & Hd & _). intros Hin.
      apply (Hd _ Hin). cbn. apply list_elem_of_here. }
    assert (push_unique acc x = acc ++ [x]) as -> by (cbn; by rewrite Hf).
    rewrite IH; rewrite <- app_assoc; done.
Qed.

Lemma array_sort_sorted_same (l : list NostrEvent) :
  StronglySorted not_older l → array_sort newest_first l = l.
Proof.
  induction 1 as [|x l Hs IH Hall]; [done|]. cbn [array_sort]. rewrite IH.
  destruct Hall as [|y l Hxy _]; [done|]. cbn [sort_insert].
  unfold newest_first, not_older in *.
  by destruct (Z.leb_spec (created_at y - created_at x) 0); [|lia].
Qed.

(** X7: a page is a fixed point of the pipeline: validating, deduplicating
    and sorting the events of a page again gives the same events. *)
Theorem X7_page_of_idempotent (f g : Filter) (raw : list NostrEvent) :
  events (page_of g (events (page_of f raw))) = events (page_of f raw).
Proof.
  destruct (page_of_events f raw) as (Hnd & _ & Hsorted & Hvalid).
  cbn [page_of events] in *.
  set (page := array_sort newest_first (dedupe (List.filter validateImageEvent raw)))
    in *.
  rewrite (filter_all _ _ Hvalid). unfold dedupe.
  rewrite (dedupe_distinct page []) by done. cbn [app].
  by apply array_sort_sorted_same.
Qed.

Lemma last_is_oldest (l : list NostrEvent) (x : NostrEvent) :
  StronglySorted not_older l → last l = Some x →
  Forall (fun e => (created_at x <= created_at e)%Z) l.
Proof.
  induction 1 as [|y l Hs IH Hall]; [done|]. intros Hlast.
  destruct l as [|z l].
  - injection Hlast as ->. by repeat constructor.
  - rewrite last_cons_cons in Hlast. specialize (IH Hlast).
    constructor; [|done]. inversion IH as [|? ? Hz _]; subst.
    inversion Hall as [|? ? Hyz _]; subst. unfold not_older in Hyz. lia.
Qed.

(** X8: a cursor is the oldest timestamp of its page: some event of the
    page carries it and no event of the page is older. *)
Theorem X8_cursor_is_oldest (env : Collaborators) (pubkey : option string)
        (pageParam : option Z) (signal : AbortSignal) (w w' : World)
        (page : Page) (cursor : Z) :
  useUserImagePosts_queryFn env pubkey pageParam signal w = (inr page, w') →
  getNextPageParam page = Some cursor →
  (∃ e, e ∈ events page ∧ created_at e = cursor)
  ∧ Forall (fun e => (cursor <= created_at e)%Z) (events page).
Proof.
  intros Hrun Hc. apply queryFn_page in Hrun. subst page.
  set (f := page_filter _ _) in *. set (raw := raw_events _ _ _ _ _) in *.
  destruct (page_of_events f raw) as (_ & _ & Hsorted & _).
  unfold getNextPageParam in Hc. cbn [page_of nextCursor events] in *.
  destruct (Z.of_nat (length raw) <? limit f)%Z; [done|].
  apply fmap_Some in Hc as (x & Hlast & ->). split.
  - exists x. split; [|done]. apply last_Some in Hlast as [l' ->].
    apply elem_of_app. right. apply list_elem_of_here.
  - by apply last_is_oldest.
Qed.

Lemma X8_witness :
  let run := useUserImagePosts_queryFn
               (Fixture.collaborators Sample.fifteen_titled)
               (Some "alice") None (CallerSignal 0) initial_world in
  run = (inr (page_of (page_filter "alice" None) Sample.fifteen_titled), snd run)
  ∧ getNextPageParam (page_of (page_filter "alice" None) Sample.fifteen_titled)
    = Some 1000%Z
  ∧ Forall (fun e => (1000 <= created_at e)%Z)
           (events (page_of (page_filter "alice" None) Sample.fifteen_titled)).
Proof.
  intros run. split; [reflexivity|]. split; [reflexivity|].
  apply (X8_cursor_is_oldest
           (Fixture.collaborators Sample.fifteen_titled) (Some "alice") None
           (CallerSignal 0) initial_world (snd run)); reflexivity.
Defined.

(** ** The shared pool across fetches *)

Lemma world_with_pool_shared (w : World) :
  sharedDiscoveryPool (world_with_pool w) = Some (pool_at w).
Proof.
  unfold world_with_pool, pool_at, getDiscoveryPool.
  unfold mbind, hook_bind, bind, read_shared.
  by destruct (sharedDiscoveryPool w) eqn:E.
Qed.

Lemma queryFn_one_pool (env : Collaborators) (pubkey : option string)
      (pageParam : option Z) (signal : AbortSignal) (w : World) :
  one_pool w →
  one_pool (snd (useUserImagePosts_queryFn env pubkey pageParam signal w)).
Proof.
  intros Hw. rewrite queryFn_run. destruct (Js.truthy pubkey); [|done].
  cbv zeta. cbn [snd]. unfold one_pool in *.
  cbn [sharedDiscoveryPool calls record].
  rewrite world_with_pool_shared, world_with_pool_calls.
  unfold new_pools, query_targets in *. rewrite !flat_map_app.
  destruct (sharedDiscoveryPool w) as [p|] eqn:Hs.
  - destruct Hw as (-> & Hn & Hq).
    assert (pool_at w = pool_at initial_world) as ->
      by (unfold pool_at at 1; by rewrite Hs).
    rewrite Hn. cbn. split; [done|]. split; [done|].
    rewrite app_nil_r. apply Forall_app. split; [done | by repeat constructor].
  - destruct Hw as (Hn & Hq & Hr).
    assert (pool_at w = pool_at initial_world) as ->
      by (unfold pool_at; rewrite Hs, Hr; done).
    rewrite Hn, Hq, Hr. cbn. split; [done|]. split; [done|].
    by repeat constructor.
Qed.

Lemma run_fetches_one_pool (env : Collaborators) (reqs : list FetchRequest)
      (w : World) :
  one_pool w → one_pool (run_fetches env reqs w).
Proof.
  revert w. induction reqs as [|r reqs IH]; intros w Hw; [done|].
  apply IH. by apply queryFn_one_pool.
Qed.

(** X9: however many pages and authors a process fetches, and whatever the
    relays answer, at most one pool is ever constructed and every query of
    every fetch is sent to that one pool. *)
Theorem X9_fetches_share_one_pool (env : Collaborators)
        (reqs : list FetchRequest) :
  let w := run_fetches env reqs initial_world in
  (length (new_pools (calls w)) ≤ 1)%nat
  ∧ Forall (fun t => t = DiscoveryPool (pool_at initial_world))
           (query_targets (calls w))
  ∧ (length (query_targets (calls w))
     = length (List.filter (fun r => enabled (fr_pubkey r)) reqs))%nat.
Proof.
  intros w.
  assert (one_pool w) as Hw by (by apply run_fetches_one_pool).
  split; [|split].
  - unfold one_pool in Hw. destruct (sharedDiscoveryPool w).
    + destruct Hw as (_ & -> & _). done.
    + destruct Hw as (-> & _). cbn. lia.
  - unfold one_pool in Hw. destruct (sharedDiscoveryPool w).
    + by destruct Hw as (_ & _ & ?).
    + destruct Hw as (_ & -> & _). constructor.
  - unfold w. clear.
    assert (∀ w0, length (query_targets (calls (run_fetches env reqs w0)))
                  = (length (query_targets (calls w0))
                     + length (List.filter (fun r => enabled (fr_pubkey r)) reqs))%nat)
      as H; [|by rewrite H].
    induction reqs as [|r reqs IH]; intros w0; cbn [run_fetches fold_left].
    + cbn. lia.
    + unfold run_fetches in IH. rewrite IH. rewrite queryFn_run.
      cbn [List.filter]. unfold enabled.
      destruct (Js.truthy (fr_pubkey r)); cbv zeta; cbn [snd calls record length].
      * unfold query_targets. rewrite flat_map_app, length_app.
        rewrite world_with_pool_calls. rewrite flat_map_app, length_app.
        cbn. destruct (sharedDiscoveryPool w0); cbn; lia.
      * lia.
Qed.

(** X10: the pool [getDiscoveryPool] constructs sends every request to all
    six discovery relays, each with the filters unchanged, and routes every
    event to the first three of them, whatever the event. *)
Theorem X10_pool_routing (w w1 : World) (pool : NPool) :
  sharedDiscoveryPool w = None →
  getDiscoveryPool w = (inr pool, w1) →
  (∀ filters, reqRouter (pool_opts pool) filters
              = map (fun url => (url, filters)) discoveryRelays)
  ∧ NoDup discoveryRelays
  ∧ length discoveryRelays = 6%nat
  ∧ (∀ ev, eventRouter (pool_opts pool) ev = take 3 discoveryRelays)
  ∧ (∀ ev url, url ∈ eventRouter (pool_opts pool) ev → url ∈ discoveryRelays).
Proof.
  intros Hs. rewrite getDiscoveryPool_run. intros [= <- _].
  unfold pool_at. rewrite Hs. cbn [default from_option pool_opts].
  split; [done|]. split.
  - apply (bool_decide_unpack (NoDup discoveryRelays)). by vm_compute.
  - split; [done|]. split; [done|]. intros ev url Hin.
    cbn [eventRouter discovery_opts] in Hin.
    change (firstn 3 discoveryRelays) with (take 3 discoveryRelays) in Hin.
    by apply (subseteq_take 3 discoveryRelays).
Qed.

Lemma X10_witness :
  sharedDiscoveryPool initial_world = None
  ∧ ∀ filters,
      reqRouter (pool_opts (pool_at initial_world)) filters
      = map (fun url => (url, filters)) discoveryRelays.
Proof.
  split; [reflexivity|].
  apply (X10_pool_routing initial_world (world_with_pool initial_world)
                          (pool_at initial_world) eq_refl).
  apply getDiscoveryPool_run.
Defined.

(** ** The aggregate of reactions *)

Lemma counted_all_fields (user : option User) (rs : list NostrEvent)
      (start : ReactionEntry) :
  counted_all user rs start
  = {| count := count start + Z.of_nat (length rs);
       users := users start ++ map pubkey rs;
       hasReacted := hasReacted start || existsb (is_viewer user) rs |}.
Proof.
  unfold counted_all. revert start.
  induction rs as [|r rs IH]; intros start; cbn [fold_left].
  - destruct start. cbn. by rewrite Z.add_0_r, app_nil_r, orb_false_r.
  - rewrite IH. unfold counted. cbn [count users hasReacted length map existsb].
    f_equal; [lia | by rewrite <- app_assoc | by rewrite orb_assoc].
Qed.

Lemma fold_after_error (user : option User) (l : list NostrEvent)
      (e : Js.error) :
  fold_left (fun acc reaction =>
               match acc with
               | inl e' => inl e'
               | inr m => count_reaction user m reaction
               end) l (inl e) = inl e.
Proof. induction l as [|r l IH]; [done | exact IH]. Qed.

(** The fold from any accumulator: either no content names an inherited
    member and each key gains the reactions counted under it, or one does
    and the fold ends in the error of [push]. *)
Lemma fold_count_reaction (user : option User) (l : list NostrEvent)
      (acc : gmap string ReactionEntry) :
  let result := fold_left (fun acc reaction =>
                             match acc with
                             | inl e' => inl e'
                             | inr m => count_reaction user m reaction
                             end) l (inr acc) in
  (Forall (fun r => Js.inherited (reaction_key r) = false) l
   ∧ ∃ m, result = inr m
          ∧ ∀ k, m !! k = merged user (acc !! k) (reactions_under k l))
  ∨ (Exists (fun r => Js.inherited (reaction_key r) = true) l
     ∧ result = inl push_on_undefined).
Proof.
  revert acc. induction l as [|r l IH]; intros acc; cbn [fold_left].
  - left. split; [constructor|]. by exists acc.
  - destruct (Js.inherited (reaction_key r)) eqn:Hr.
    + right. split; [by constructor|].
      unfold count_reaction. fold (reaction_key r). rewrite Hr.
      apply fold_after_error.
    + rewrite (count_reaction_insert user acc r Hr). fold (reaction_key r).
      destruct (IH (<[reaction_key r :=
                       counted user r (default fresh_entry (acc !! reaction_key r))]> acc))
        as [(Hall & m & Hm & Hspec) | (Hex & Herr)].
      * left. split; [by constructor|]. exists m. split; [done|].
        intros k. rewrite Hspec. unfold reactions_under. cbn [List.filter].
        destruct (String.eqb_spec (reaction_key r) k) as [<-|Hne].
        -- rewrite lookup_insert_eq. unfold merged, counted_all.
           cbn [fold_left default from_option].
           by destruct (List.filter _ l).
        -- by rewrite lookup_insert_ne.
      * right. split; [by constructor | done].
Qed.

Lemma merged_empty (user : option User) (rs : list NostrEvent) :
  merged user None rs = entry_of user rs.
Proof.
  unfold merged, entry_of. destruct rs as [|r rs]; [done|].
  rewrite counted_all_fields. cbn [default fresh_entry count users hasReacted].
  by rewrite Z.add_0_l.
Qed.

Lemma aggregate_spec (user : option User) (l : list NostrEvent) :
  (Forall (fun r => Js.inherited (reaction_key r) = false) l
   ∧ ∃ m, aggregate user l = inr m
          ∧ ∀ k, m !! k = entry_of user (reactions_under k l))
  ∨ (Exists (fun r => Js.inherited (reaction_key r) = true) l
     ∧ aggregate user l = inl push_on_undefined).
Proof.
  destruct (fold_count_reaction user l ∅)
    as [(Hall & m & Hm & Hspec) | H]; [left | by right].
  split; [done|]. exists m. split; [done|]. intros k.
  by rewrite Hspec, lookup_empty, merged_empty.
Qed.

Lemma useReactions_run (env : Collaborators) (user : option User)
      (eventId : string) (c_signal : AbortSignal) (w : World) :
  fst (useReactions_queryFn env user eventId c_signal w)
  = match relay_query env (calls w) NostrPool [reactions_filter eventId]
                      (AnySignal [c_signal; TimeoutSignal 3000]) with
    | inl e => inl e
    | inr raw => aggregate user (List.filter validateReactionEvent raw)
    end.
Proof.
  unfold useReactions_queryFn, mbind, hook_bind, bind, pool_query.
  destruct (relay_query _ _ _ _ _) as [e|raw]; [done|].
  by destruct (aggregate _ _).
Qed.

(** X11: the aggregate the hook resolves to holds, under each content (with
    [+] for the empty one), exactly the valid reactions of that content: the
    count is their number, the users are their authors in the order of the
    answer, and [hasReacted] tells whether the viewer is one of the authors.
    Reactions that fail the validator count nowhere, and a content with no
    valid reaction has no entry. *)
Theorem X11_reactions_aggregate (env : Collaborators) (user : option User)
        (eventId : string) (c_signal : AbortSignal) (w : World)
        (raw : list NostrEvent) :
  relay_query env (calls w) NostrPool [reactions_filter eventId]
              (AnySignal [c_signal; TimeoutSignal 3000]) = inr raw →
  Forall (fun r => Js.inherited (reaction_key r) = false)
         (List.filter validateReactionEvent raw) →
  ∃ m, fst (useReactions_queryFn env user eventId c_signal w) = inr m
       ∧ ∀ k, m !! k
              = entry_of user
                  (reactions_under k (List.filter validateReactionEvent raw)).
Proof.
  intros Hq Hall. rewrite useReactions_run, Hq.
  destruct (aggregate_spec user (List.filter validateReactionEvent raw))
    as [(_ & m & Hm & Hspec) | (Hex & _)]; [by exists m|].
  exfalso. apply Exists_exists in Hex as (r & Hin & Hr).
  rewrite Forall_forall in Hall. specialize (Hall r Hin). congruence.
Qed.

Lemma X11_witness :
  ∃ m, fst (useReactions_queryFn
              (Fixture.collaborators
                 (Fixture.silent_like :: Fixture.titled_bad_imeta
                  :: Fixture.three_reactions))
              (Some Fixture.viewer) "post1" (CallerSignal 0) initial_world)
       = inr m
       ∧ m !! "+" = Some {| count := 3; users := ["viewer"; "bob"; "carol"];
                            hasReacted := true |}.
Proof.
  destruct (X11_reactions_aggregate
              (Fixture.collaborators
                 (Fixture.silent_like :: Fixture.titled_bad_imeta
                  :: Fixture.three_reactions))
              (Some Fixture.viewer) "post1" (CallerSignal 0) initial_world
              (Fixture.silent_like :: Fixture.titled_bad_imeta
               :: Fixture.three_reactions) eq_refl)
    as (m & Hm & Hspec).
  - by repeat constructor.
  - exists m. split; [exact Hm|]. rewrite Hspec. reflexivity.
Defined.

(** X12: in every aggregate, the count of an entry is the number of users it
    lists and is at least 1, and the entry is marked [hasReacted] exactly
    when the viewer's key is among its users; an author who reacted twice
    with the same content is listed and counted twice. *)
Theorem X12_aggregate_entries (user : option User) (l : list NostrEvent)
        (m : gmap string ReactionEntry) (k : string) (e : ReactionEntry) :
  aggregate user l = inr m →
  m !! k = Some e →
  count e = Z.of_nat (length (users e))
  ∧ (1 <= count e)%Z
  ∧ users e = map pubkey (reactions_under k l)
  ∧ (hasReacted e = true ↔ ∃ u, user = Some u ∧ user_pubkey u ∈ users e).
Proof.
  intros Hm Hk.
  destruct (aggregate_spec user l) as [(_ & m' & Hm' & Hspec) | (_ & Herr)];
    [|congruence].
  assert (m' = m) as -> by congruence. rewrite Hspec in Hk.
  unfold entry_of in Hk. destruct (reactions_under k l) as [|r rs] eqn:Hrs;
    [done|]. injection Hk as <-. cbn [count users hasReacted].
  change (pubkey r :: map pubkey rs) with (map pubkey (r :: rs)).
  change (is_viewer user r || existsb (is_viewer user) rs)
    with (existsb (is_viewer user) (r :: rs)).
  change (S (length rs)) with (length (r :: rs)).
  split; [by rewrite List.length_map|]. split; [cbn; lia|]. split; [done|].
  rewrite existsb_exists. split.
  - intros (x & Hin & Hx). apply is_viewer_spec in Hx as (u & -> & Hu).
    exists u. split; [done|]. rewrite <- Hu.
    apply list_elem_of_fmap_2. by apply list_elem_of_In.
  - intros (u & -> & Hin). apply list_elem_of_fmap in Hin as (x & Hx & Hin).
    exists x. split; [by apply list_elem_of_In|].
    apply is_viewer_spec. by exists u.
Qed.

Lemma X12_witness :
  let l := [Fixture.reaction "r1" "bob" "+"; Fixture.reaction "r2" "bob" "+"] in
  ∃ m, aggregate None l = inr m
       ∧ (count <$> m !! "+") = Some 2%Z
       ∧ (users <$> m !! "+") = Some ["bob"; "bob"].
Proof.
  intros l.
  destruct (aggregate None l) as [err|m] eqn:Hm; [by vm_compute in Hm|].
  exists m.
  assert (m !! "+" = Some {| count := 2; users := ["bob"; "bob"];
                             hasReacted := false |}) as Hk.
  { vm_compute in Hm. injection Hm as <-. reflexivity. }
  destruct (X12_aggregate_entries None l m "+" _ Hm Hk) as (Hc & _ & Hu & _).
  split; [done|]. by rewrite Hk.
Defined.

(** X13: a valid reaction whose content names a member that every object
    inherits (such as [constructor]) makes the whole aggregation fail with a
    [TypeError], although the relay answered; without such a reaction among
    the valid ones the hook does not fail. *)
Theorem X13_inherited_content_fails (env : Collaborators) (user : option User)
        (eventId : string) (c_signal : AbortSignal) (w : World)
        (raw : list NostrEvent) :
  relay_query env (calls w) NostrPool [reactions_filter eventId]
              (AnySignal [c_signal; TimeoutSignal 3000]) = inr raw →
  let run := fst (useReactions_queryFn env user eventId c_signal w) in
  ((∃ e, run = inl e)
   ↔ Exists (fun r => Js.inherited (reaction_key r) = true)
            (List.filter validateReactionEvent raw))
  ∧ (∀ e, run = inl e → e = push_on_undefined).
Proof.
  intros Hq run. unfold run. rewrite useReactions_run, Hq.
  destruct (aggregate_spec user (List.filter validateReactionEvent raw))
    as [(Hall & m & -> & _) | (Hex & ->)].
  - split; [|done]. split; [by intros [e He]|].
    intros Hex. exfalso. apply Exists_exists in Hex as (r & Hin & Hr).
    rewrite Forall_forall in Hall. specialize (Hall r Hin). congruence.
  - split; [|by intros e [= <-]]. split; [done | by eexists].
Qed.

Lemma X13_witness :
  fst (useReactions_queryFn
         (Fixture.collaborators
            [Fixture.reaction "r1" "bob" "+"; Sample.constructor_reaction])
         None "post1" (CallerSignal 0) initial_world)
  = inl push_on_undefined.
Proof.
  destruct (X13_inherited_content_fails
              (Fixture.collaborators
                 [Fixture.reaction "r1" "bob" "+"; Sample.constructor_reaction])
              None "post1" (CallerSignal 0) initial_world
              [Fixture.reaction "r1" "bob" "+"; Sample.constructor_reaction]
              eq_refl) as [[_ Hfail] Herr].
  destruct Hfail as [e He].
  - apply Exists_cons_tl, Exists_cons_hd. reflexivity.
  - by rewrite (Herr e He) in He.
Defined.

(** ** The add-reaction mutation *)

(** Every way a run of the add-reaction mutation can go. *)
Lemma reactToPost_shape (env : Collaborators) (user : option User)
      (vars : ReactVars) (w : World) :
  let run := reactToPost env user vars w in
  let log := new_calls w (snd run) in
  (signer_of user = None
   ∧ fst run = inl (Js.Error "User not logged in") ∧ log = [])
  ∨ ∃ sgn,
      signer_of user = Some sgn
      ∧ let tmpl := reaction_template vars (date_now env (calls w) / 1000) in
        let signed := CallSignEvent sgn tmpl in
        (∃ e, signer_signEvent env (calls w) sgn tmpl = inl e
              ∧ fst run = inl e ∧ log = [signed])
        ∨ ∃ ev,
            signer_signEvent env (calls w) sgn tmpl = inr ev
            ∧ ((∃ e, relay_event env (calls w ++ [signed]) NostrPool ev = inl e
                     ∧ fst run = inl e
                     ∧ log = [signed; CallPublish NostrPool ev])
               ∨ (relay_event env (calls w ++ [signed]) NostrPool ev = inr tt
                  ∧ fst run = inr ev
                  ∧ log = [signed; CallPublish NostrPool ev;
                           CallInvalidate ["reactions"; rv_eventId vars]])).
Proof.
  intros run log. unfold log, run, reactToPost, mutate,
    useReactToPost_mutationFn.
  destruct (signer_of user) as [sgn|];
    [right; exists sgn; split; [done|] | left; by rewrite new_calls_same].
  unfold mbind, hook_bind, bind, signEvent, pool_event, now_seconds,
    invalidateQueries, mret, hook_ret, ret.
  fold (reaction_template vars (date_now env (calls w) / 1000)).
  cbv zeta.
  destruct (signer_signEvent _ _ _ _) as [e|ev] eqn:Hsign.
  - left. exists e. split; [done|]. split; [done | by log_tail].
  - right. exists ev. split; [done|]. cbn [calls record].
    destruct (relay_event _ _ _ _) as [e|[]] eqn:Hpub.
    + left. exists e. split; [done|]. split; [done | by log_tail].
    + right. split; [done|]. split; [done | by log_tail].
Qed.

(** X14: the add-reaction mutation signs first, publishes exactly the event
    the signer returned, and invalidates [['reactions', eventId]] last and
    only after both succeeded: a rejected signature publishes nothing, a
    rejected publish leaves the cache alone, and each rejection is the error
    of the mutation. It signs a kind-7 template with the tags [e], [p], [k]
    and never queries the relay for an existing reaction. *)
Theorem X14_reactToPost_runs (env : Collaborators) (user : option User)
        (vars : ReactVars) (w : World) :
  let run := reactToPost env user vars w in
  let log := new_calls w (snd run) in
  ((signer_of user = None
    ∧ fst run = inl (Js.Error "User not logged in") ∧ log = [])
   ∨ ∃ sgn,
       signer_of user = Some sgn
       ∧ let tmpl := reaction_template vars (date_now env (calls w) / 1000) in
         let signed := CallSignEvent sgn tmpl in
         (∃ e, signer_signEvent env (calls w) sgn tmpl = inl e
               ∧ fst run = inl e ∧ log = [signed])
         ∨ ∃ ev,
             signer_signEvent env (calls w) sgn tmpl = inr ev
             ∧ ((∃ e, relay_event env (calls w ++ [signed]) NostrPool ev = inl e
                      ∧ fst run = inl e
                      ∧ log = [signed; CallPublish NostrPool ev])
                ∨ (relay_event env (calls w ++ [signed]) NostrPool ev = inr tt
                   ∧ fst run = inr ev
                   ∧ log = [signed; CallPublish NostrPool ev;
                            CallInvalidate ["reactions"; rv_eventId vars]])))
  ∧ query_signals log = []
  ∧ (Exists (fun c => is_invalidate c = true) log ↔ ∃ ev, fst run = inr ev).
Proof.
  intros run log. pose proof (reactToPost_shape env user vars w) as H.
  cbv zeta in H. fold run in H. fold log in H. split; [exact H|].
  destruct H as [(_ & Hr & ->) | (sgn & _ & [(e & _ & Hr & ->)
                 | (ev & _ & [(e & _ & Hr & ->) | (_ & Hr & ->)])])];
    rewrite Hr; (split; [done|]); split;
    try (intros [ev' ?]; discriminate);
    try (intros Hex; exfalso; repeat (inversion_clear Hex as [?? Hc|?? Hex']; [discriminate Hc|]; rename Hex' into Hex); by inversion Hex).
  - intros _. by eexists.
  - intros _. do 2 apply Exists_cons_tl. by apply Exists_cons_hd.
Qed.

(** X15: with a signer that keeps the kind and tags it is given, the
    reaction the mutation returns passes [validateReactionEvent] exactly when
    neither the target identifier nor the author key is empty. *)
Theorem X15_published_reaction_is_valid (env : Collaborators)
        (user : option User) (vars : ReactVars) (w w' : World)
        (ev : NostrEvent) :
  faithful_signer env →
  reactToPost env user vars w = (inr ev, w') →
  validateReactionEvent ev = true
  ↔ rv_eventId vars ≠ "" ∧ rv_authorPubkey vars ≠ "".
Proof.
  intros Hfaith Hrun.
  pose proof (reactToPost_shape env user vars w) as H. cbv zeta in H.
  rewrite Hrun in H. cbn [fst snd] in H.
  destruct H as [(_ & Hr & _) | (sgn & _ & [(e & _ & Hr & _)
                 | (ev' & Hsign & [(e & _ & Hr & _) | (_ & Hr & _)])])];
    try discriminate.
  injection Hr as <-. apply Hfaith in Hsign as [Hk Ht].
  unfold validateReactionEvent. rewrite Hk, Ht.
  cbn [reaction_template t_kind t_tags]. cbn.
  destruct (String.eqb_spec (rv_eventId vars) "") as [He|He]; cbn.
  - split; [done | by intros [? _]].
  - destruct (String.eqb_spec (rv_authorPubkey vars) "") as [Ha|Ha]; cbn.
    + split; [done | by intros [_ ?]].
    + done.
Qed.

Lemma X15_witness :
  let run := reactToPost (Fixture.collaborators []) (Some Fixture.viewer)
               Sample.like_vars initial_world in
  ∃ ev, run = (inr ev, snd run) ∧ validateReactionEvent ev = true.
Proof.
  intros run. eexists. split; [reflexivity|].
  apply (X15_published_reaction_is_valid (Fixture.collaborators [])
           (Some Fixture.viewer) Sample.like_vars initial_world (snd run)).
  - intros log sgn t ev [= <-]. done.
  - reflexivity.
  - split; discriminate.
Defined.

(** ** The remove-reaction mutation *)

(** Every way a run of the remove-reaction mutation can go. *)
Lemma removeReaction_shape (env : Collaborators) (user : option User)
      (vars : RemoveVars) (w : World) :
  let run := removeReaction env user vars w in
  let log := new_calls w (snd run) in
  (signer_of user = None
   ∧ fst run = inl (Js.Error "User not logged in") ∧ log = [])
  ∨ ∃ u sgn,
      user = Some u ∧ signer u = Some sgn
      ∧ let filters := [own_reactions_filter (user_pubkey u) (rm_eventId vars)] in
        let asked := CallQuery NostrPool filters (TimeoutSignal 3000) in
        (∃ e, relay_query env (calls w) NostrPool filters (TimeoutSignal 3000)
              = inl e
              ∧ fst run = inl e ∧ log = [asked])
        ∨ ∃ existing,
            relay_query env (calls w) NostrPool filters (TimeoutSignal 3000)
            = inr existing
            ∧ ((List.find (same_reaction (default "+" (rm_reaction vars)))
                          existing = None
                ∧ fst run = inl (Js.Error "Reaction not found")
                ∧ log = [asked])
               ∨ ∃ target,
                   List.find (same_reaction (default "+" (rm_reaction vars)))
                             existing = Some target
                   ∧ let tmpl := deletion_template target
                                   (date_now env (calls w ++ [asked]) / 1000) in
                     let signed := CallSignEvent sgn tmpl in
                     (∃ e, signer_signEvent env (calls w ++ [asked]) sgn tmpl
                           = inl e
                           ∧ fst run = inl e ∧ log = [asked; signed])
                     ∨ ∃ ev,
                         signer_signEvent env (calls w ++ [asked]) sgn tmpl
                         = inr ev
                         ∧ ((∃ e, relay_event env (calls w ++ [asked] ++ [signed])
                                              NostrPool ev = inl e
                                  ∧ fst run = inl e
                                  ∧ log = [asked; signed;
                                           CallPublish NostrPool ev])
                            ∨ (relay_event env (calls w ++ [asked] ++ [signed])
                                           NostrPool ev = inr tt
                               ∧ fst run = inr ev
                               ∧ log = [asked; signed;
                                        CallPublish NostrPool ev;
                                        CallInvalidate
                                          ["reactions"; rm_eventId vars]]))).
Proof.
  intros run log. unfold log, run, removeReaction, mutate,
    useRemoveReaction_mutationFn.
  destruct user as [u|]; [|left; by rewrite new_calls_same].
  cbn [signer_of]. destruct (signer u) as [sgn|] eqn:Hsg;
    [right; exists u, sgn | left; by rewrite new_calls_same].
  split; [done|]. split; [done|].
  unfold mbind, hook_bind, bind, pool_query, signEvent, pool_event,
    now_seconds, invalidateQueries, mret, hook_ret, ret, throw.
  cbv zeta.
  destruct (relay_query _ _ _ _ _) as [e|existing] eqn:Hq.
  { left. exists e. split; [done|]. split; [done | by log_tail]. }
  right. exists existing. split; [done|].
  destruct (List.find _ existing) as [target|] eqn:Hfind.
  2: { left. split; [done|]. split; [done | by log_tail]. }
  right. exists target. split; [done|]. cbn [calls record].
  fold (deletion_template target
          (date_now env
             (calls w ++ [CallQuery NostrPool
                            [own_reactions_filter (user_pubkey u) (rm_eventId vars)]
                            (TimeoutSignal 3000)]) / 1000)).
  destruct (signer_signEvent _ _ _ _) as [e|ev] eqn:Hsign.
  { left. exists e. split; [done|]. split; [done | by log_tail]. }
  right. exists ev. split; [done|]. cbn [calls record].
  rewrite <- !app_assoc.
  destruct (relay_event _ _ _ _) as [e|[]] eqn:Hpub.
  - left. exists e. split; [done|]. split; [done | by log_tail].
  - right. split; [done|]. split; [done | by log_tail].
Qed.

Lemma find_first (A : Type) (f : A → bool) (before after : list A) (x : A) :
  Forall (fun y => f y = false) before → f x = true →
  List.find f (before ++ x :: after) = Some x.
Proof.
  intros Hb Hx. induction Hb as [|y l Hy _ IH]; cbn.
  - by rewrite Hx.
  - by rewrite Hy.
Qed.

Ltac no_such_call Hex :=
  repeat (inversion_clear Hex as [?? Hc|?? Hex'];
          [discriminate Hc|]; rename Hex' into Hex);
  (by inversion Hex).

(** X16: the remove-reaction mutation looks the viewer's reactions up first
    (kind 7, the viewer as author, the target in [#e], limit 10), signs a
    kind-5 deletion only for a reaction the lookup found, publishes exactly
    what the signer returned, and invalidates [['reactions', eventId]] last
    and only after all of it succeeded. Without a signer it makes no call at
    all, not even the lookup; a rejected lookup, signature or publish is the
    error of the mutation and ends it there. *)
Theorem X16_removeReaction_runs (env : Collaborators) (user : option User)
        (vars : RemoveVars) (w : World) :
  let run := removeReaction env user vars w in
  let log := new_calls w (snd run) in
  ((signer_of user = None
    ∧ fst run = inl (Js.Error "User not logged in") ∧ log = [])
   ∨ ∃ u sgn,
       user = Some u ∧ signer u = Some sgn
       ∧ let filters := [own_reactions_filter (user_pubkey u) (rm_eventId vars)] in
         let asked := CallQuery NostrPool filters (TimeoutSignal 3000) in
         (∃ e, relay_query env (calls w) NostrPool filters (TimeoutSignal 3000)
               = inl e
               ∧ fst run = inl e ∧ log = [asked])
         ∨ ∃ existing,
             relay_query env (calls w) NostrPool filters (TimeoutSignal 3000)
             = inr existing
             ∧ ((List.find (same_reaction (default "+" (rm_reaction vars)))
                           existing = None
                 ∧ fst run = inl (Js.Error "Reaction not found")
                 ∧ log = [asked])
                ∨ ∃ target,
                    List.find (same_reaction (default "+" (rm_reaction vars)))
                              existing = Some target
                    ∧ let tmpl := deletion_template target
                                    (date_now env (calls w ++ [asked]) / 1000) in
                      let signed := CallSignEvent sgn tmpl in
                      (∃ e, signer_signEvent env (calls w ++ [asked]) sgn tmpl
                            = inl e
                            ∧ fst run = inl e ∧ log = [asked; signed])
                      ∨ ∃ ev,
                          signer_signEvent env (calls w ++ [asked]) sgn tmpl
                          = inr ev
                          ∧ ((∃ e, relay_event env
                                     (calls w ++ [asked] ++ [signed])
                                     NostrPool ev = inl e
                                   ∧ fst run = inl e
                                   ∧ log = [asked; signed;
                                            CallPublish NostrPool ev])
                             ∨ (relay_event env
                                  (calls w ++ [asked] ++ [signed])
                                  NostrPool ev = inr tt
                                ∧ fst run = inr ev
                                ∧ log = [asked; signed;
                                         CallPublish NostrPool ev;
                                         CallInvalidate
                                           ["reactions"; rm_eventId vars]]))))
  ∧ (Exists (fun c => is_invalidate c = true) log ↔ ∃ ev, fst run = inr ev).
Proof.
  intros run log. pose proof (removeReaction_shape env user vars w) as H.
  cbv zeta in H. fold run in H. fold log in H. split; [exact H|].
  destruct H as [(Hs & Hr & ->) | (u & sgn & -> & Hsg & H)].
  { rewrite Hr. split; [intros Hex; by inversion Hex | by intros [? ?]]. }
  destruct H as [(e & Hq & Hr & ->)
                | (existing & Hq & [(Hf & Hr & ->)
                  | (target & Hf & [(e & Hsign & Hr & ->)
                    | (ev & Hsign & [(e & Hpub & Hr & ->)
                      | (Hpub & Hr & ->)])])])];
    rewrite Hr.
  1-4: split; [intros Hex; no_such_call Hex | by intros [? ?]].
  split; [intros _; by eexists|].
  intros _. do 3 apply Exists_cons_tl. by apply Exists_cons_hd.
Qed.

(** X17: only the first matching reaction is deleted. When the lookup
    returns several reactions of the requested content, the one deletion the
    mutation signs names the first of them, and no later one. *)
Theorem X17_first_match_is_deleted (env : Collaborators) (u : User)
        (sgn : nat) (vars : RemoveVars) (w : World)
        (before after : list NostrEvent) (target : NostrEvent) :
  signer u = Some sgn →
  relay_query env (calls w) NostrPool
              [own_reactions_filter (user_pubkey u) (rm_eventId vars)]
              (TimeoutSignal 3000) = inr (before ++ target :: after) →
  Forall (fun r => same_reaction (default "+" (rm_reaction vars)) r = false)
         before →
  same_reaction (default "+" (rm_reaction vars)) target = true →
  let log := new_calls w (snd (removeReaction env (Some u) vars w)) in
  ∃ created,
    List.filter is_sign log
    = [CallSignEvent sgn (deletion_template target created)]
    ∧ t_tags (deletion_template target created) = [ ["e"; id target] ].
Proof.
  intros Hsg Hq Hbefore Htarget log.
  pose proof (removeReaction_shape env (Some u) vars w) as H.
  cbv zeta in H. fold log in H.
  destruct H as [(Hs & _) | (u' & sgn' & [= <-] & Hsg' & H)];
    [cbn in Hs; congruence|].
  assert (sgn' = sgn) as -> by congruence. rewrite Hq in H.
  pose proof (find_first _ _ before after target Hbefore Htarget) as Hfind.
  destruct H as [(e & [=] & _) | (existing & [= <-] & H)].
  rewrite Hfind in H.
  destruct H as [([=] & _)
                | (target' & [= <-] & [(e & _ & _ & ->)
                  | (ev & _ & [(e & _ & _ & ->) | (_ & _ & ->)])])];
    by eexists.
Qed.

(** The viewer liked the post twice; one deletion, of the first like. *)
Lemma X17_witness :
  let env := Fixture.collaborators
               [Fixture.reaction "r3" "viewer" "🔥";
                Fixture.reaction "r5" "viewer" "+";
                Fixture.reaction "r6" "viewer" "+"] in
  ∃ created,
    List.filter is_sign
      (new_calls initial_world
         (snd (removeReaction env (Some Fixture.viewer)
                 {| rm_eventId := "post1"; rm_reaction := None |}
                 initial_world)))
    = [CallSignEvent 0 (deletion_template (Fixture.reaction "r5" "viewer" "+")
                                          created)].
Proof.
  intros env.
  destruct (X17_first_match_is_deleted env Fixture.viewer 0%nat
              {| rm_eventId := "post1"; rm_reaction := None |} initial_world
              [Fixture.reaction "r3" "viewer" "🔥"]
              [Fixture.reaction "r6" "viewer" "+"]
              (Fixture.reaction "r5" "viewer" "+")
              eq_refl eq_refl) as (created & H & _).
  - by repeat constructor.
  - reflexivity.
  - by exists created.
Defined.

Lemma reaction_key_not_empty (r : NostrEvent) : same_reaction "" r = false.
Proof.
  unfold same_reaction, Js.or_else.
  destruct (String.eqb_spec (content r) "") as [_|Hne]; [done|].
  by apply String.eqb_neq.
Qed.

(** X18: asking to remove the empty reaction never finds anything. An
    explicit empty content is not replaced by the default, while every
    existing reaction is compared as [+] when its content is empty; so with a
    signer and an answered lookup the mutation always ends with
    [Error('Reaction not found')] and signs and publishes nothing. *)
Theorem X18_empty_reaction_is_never_found (env : Collaborators) (u : User)
        (sgn : nat) (vars : RemoveVars) (w : World)
        (existing : list NostrEvent) :
  signer u = Some sgn →
  rm_reaction vars = Some "" →
  relay_query env (calls w) NostrPool
              [own_reactions_filter (user_pubkey u) (rm_eventId vars)]
              (TimeoutSignal 3000) = inr existing →
  let run := removeReaction env (Some u) vars w in
  fst run = inl (Js.Error "Reaction not found")
  ∧ no_sign_no_publish (new_calls w (snd run)).
Proof.
  intros Hsg Hr Hq run.
  pose proof (removeReaction_shape env (Some u) vars w) as H.
  cbv zeta in H. fold run in H.
  destruct H as [(Hs & _) | (u' & sgn' & [= <-] & _ & H)];
    [cbn in Hs; congruence|].
  rewrite Hq, Hr in H. cbn [default from_option Datatypes.id] in H.
  assert (List.find (same_reaction "") existing = None) as Hnone.
  { destruct (List.find _ existing) as [r|] eqn:Hf; [|done].
    apply find_some in Hf as [_ Hf]. by rewrite reaction_key_not_empty in Hf. }
  destruct H as [(e & [=] & _) | (existing' & [= <-] & [(_ & -> & ->)
                | (target & Hf & _)])]; [|congruence].
  split; [done | by repeat constructor].
Qed.

Lemma X18_witness :
  let env := Fixture.collaborators [Fixture.silent_like] in
  fst (removeReaction env (Some Fixture.viewer)
         {| rm_eventId := "post1"; rm_reaction := Some "" |} initial_world)
  = inl (Js.Error "Reaction not found").
Proof.
  intros env.
  apply (X18_empty_reaction_is_never_found env Fixture.viewer 0%nat
           {| rm_eventId := "post1"; rm_reaction := Some "" |} initial_world
           [Fixture.silent_like]); reflexivity.
Defined.

(** ** The notification bell *)

(** X19: the bell renders nothing exactly when no user is logged in. When it
    renders, the popover follows the [open] state, the badge is there exactly
    when the unread count is positive, and the badge shows the count itself
    for 1 to 99 and the text [99+] above: never a number over 99, never 0. *)
Theorem X19_bell_badge (props : Bell.Props) (open : bool)
        (user : option User) (isLoading : bool) (unreadCount : Z) :
  (Bell.NotificationBell props open user isLoading unreadCount = None
   ↔ user = None)
  ∧ ∀ p, Bell.NotificationBell props open user isLoading unreadCount = Some p →
         Bell.popover_open p = open
         ∧ (Bell.button_badge (Bell.trigger p) = None ↔ (unreadCount <= 0)%Z)
         ∧ ∀ b, Bell.button_badge (Bell.trigger p) = Some b →
                (Bell.badge_child b = Bell.Number unreadCount
                 ∧ (1 <= unreadCount <= 99)%Z)
                ∨ (Bell.badge_child b = Bell.Text "99+"
                   ∧ (99 < unreadCount)%Z).
Proof.
  unfold Bell.NotificationBell. split.
  - destruct user; [|done].
    destruct (default Bell.Default (Bell.variant props)); by split.
  - intros p Hp. destruct user as [u|]; [|done].
    assert (Bell.popover_open p = open
            ∧ ∃ cls, Bell.button_badge (Bell.trigger p)
                     = Bell.badge cls unreadCount) as [Ho [cls Hb]].
    { destruct (default Bell.Default (Bell.variant props));
        injection Hp as <-; (split; [done | by eexists]). }
    split; [done|]. rewrite Hb. unfold Bell.badge.
    destruct (Z.ltb_spec 0 unreadCount) as [Hpos|Hle].
    + split; [split; [done | lia]|]. intros b [= <-]. cbn.
      destruct (Z.ltb_spec 99 unreadCount); [right | left]; split; (done || lia).
    + split; [done | by intros b].
Qed.

(** X20: the two variants differ in layout only: for the same user, loading
    state and unread count, what the badge shows is the same whatever the
    props, and so is whether the bell renders at all. *)
Theorem X20_bell_variants_agree (props1 props2 : Bell.Props) (open : bool)
        (user : option User) (isLoading : bool) (unreadCount : Z) :
  let shown (props : Bell.Props) :=
    (fun p => Bell.badge_child <$> Bell.button_badge (Bell.trigger p))
      <$> Bell.NotificationBell props open user isLoading unreadCount in
  shown props1 = shown props2.
Proof.
  cbv zeta. unfold Bell.NotificationBell. destruct user; [|done].
  destruct (default Bell.Default (Bell.variant props1)),
           (default Bell.Default (Bell.variant props2));
    cbn; unfold Bell.badge; by destruct (0 <? unreadCount)%Z.
Qed.

(** The class of the trigger button is the fixed classes of the variant
    followed by the [className] prop; when the prop is left out, the word
    [undefined] stands in its place. *)
Lemma bell_className (props : Bell.Props) (open : bool) (u : User)
        (isLoading : bool) (unreadCount : Z) :
  ∃ p, Bell.NotificationBell props open (Some u) isLoading unreadCount = Some p
       ∧ Bell.button_className (Bell.trigger p)
         = (match default Bell.Default (Bell.variant props) with
            | Bell.Mobile => "relative "
            | Bell.Default => "w-full justify-start relative "
            end)
           +:+ match Bell.className props with
               | Some cls => cls
               | None => "undefined"
               end.
Proof.
  unfold Bell.NotificationBell.
  destruct (default Bell.Default (Bell.variant props));
    eexists; (split; [reflexivity|]); cbn [Bell.trigger Bell.button_className];
    unfold Bell.interpolate; by destruct (Bell.className props).
Qed.
